(** * stardustlib: the StarDust query class over the presolar grain table

    A shallow embedding of [stardustlib/stardustlib.py].  The class keeps two
    pandas DataFrame objects, [self.db] (the table the filters narrow) and
    [self._db] (the copy made at construction), and a module-level helper
    [create_db_iso].

    Python objects are modelled by a store of frames addressed by reference,
    so that [copy], boolean indexing (both allocate) and
    [dropna(inplace=True)] (which overwrites an object where it stands) are
    told apart.  Exceptions are values of [exn]; a raising call leaves the
    store as it was at the point of the raise. *)

From Stdlib Require Import ZArith Lia Ascii String.
From Stdlib Require Import Floats.SpecFloat.
From stdpp Require Import base list strings.

Open Scope string_scope.

(** ** Exceptions and results *)

Inductive exn : Type :=
| ValueError (msg : string)
| KeyError (key : string)
| KeyErrorIndex (missing : list string)   (* KeyError of a selection by a list of labels *)
| IndexError
| NameError (name : string)
| TypeError
| Dangling (r : nat).   (* a reference outside the store; never met after __init__ *)

Inductive result (A : Type) : Type :=
| Ok (a : A)
| Raise (e : exn).
Arguments Ok {A} a.
Arguments Raise {A} e.

Definition rbind {A B} (r : result A) (k : A → result B) : result B :=
  match r with
  | Ok a => k a
  | Raise e => Raise e
  end.

(** ** Isotope names: [create_db_iso] *)

(** [str.split(sep)] for a one-character separator: the pieces between the
    occurrences of [sep], always at least one piece. *)
Fixpoint str_split (sep : ascii) (s : string) : list string :=
  match s with
  | EmptyString => [EmptyString]
  | String c rest =>
      if Ascii.eqb c sep then EmptyString :: str_split sep rest
      else match str_split sep rest with
           | piece :: pieces => String c piece :: pieces
           | [] => [String c EmptyString]
           end
  end.

(** [iso_split = iso.split("-"); return iso_split[1] + iso_split[0]].
    Indexing a list out of range raises IndexError. *)
Definition create_db_iso (iso : string) : result string :=
  let iso_split := str_split "-"%char iso in
  match iso_split !! 1%nat with
  | None => Raise IndexError
  | Some second =>
      match iso_split !! 0%nat with
      | None => Raise IndexError
      | Some first => Ok (second +:+ first)
      end
  end.

(** ** The table: a pandas DataFrame *)

(** A float64 value, in the representation of the IEEE specification of
    the standard library (sign, mantissa, exponent; the floats of a table
    are the normalised ones).  [S754_nan] is the missing value of pandas. *)
Abbreviation float := spec_float.
Abbreviation NaN := S754_nan.

Inductive cell : Type :=
| Num (x : float)
| Str (s : string).

(** One record of the table: its index label (first column of the csv
    file) and its values, aligned with the column names. *)
Record row : Type := Row { name : string; cells : list cell }.

(** Column names are pairwise distinct in a frame that [read_csv] built
    (it renames a repeated header), so [df[h]] on such a frame is one
    column. *)
Record DataFrame : Type := Frame { columns : list string; rows : list row }.

(** Position of the first column called [h]. *)
Fixpoint col_pos (h : string) (cols : list string) : option nat :=
  match cols with
  | [] => None
  | c :: cols' => if String.eqb h c then Some 0%nat else S <$> col_pos h cols'
  end.

(** The value of a record in the column at position [i]; a field the file
    left out reads as missing. *)
Definition cell_at (i : nat) (r : row) : cell := default (Num NaN) (cells r !! i).

(** [df[h]] for a single label: the Series of that column, KeyError when no
    column has that name. *)
Definition getitem (df : DataFrame) (h : string) : result (list cell) :=
  match col_pos h (columns df) with
  | None => Raise (KeyError h)
  | Some i => Ok (map (cell_at i) (rows df))
  end.

(** [df[mask]] for a boolean Series computed from [df] itself: the records
    whose mask entry is True, in their order. *)
Fixpoint select (rs : list row) (mask : list bool) : list row :=
  match rs, mask with
  | r :: rs', b :: mask' => if b then r :: select rs' mask' else select rs' mask'
  | _, _ => []
  end.

Definition getitem_mask (df : DataFrame) (mask : list bool) : DataFrame :=
  Frame (columns df) (select (rows df) mask).

(** The comparison operators that [comp_dict] splices into the evaluated
    expression: <, >, <=, >=, ==. *)
Inductive cmpop : Type := OpLt | OpGt | OpLe | OpGe | OpEq.

(** IEEE comparison of two floats; every comparison with NaN is False. *)
Definition compare_float (op : cmpop) (x v : float) : bool :=
  match op with
  | OpLt => SFltb x v
  | OpGt => SFltb v x
  | OpLe => SFleb x v
  | OpGe => SFleb v x
  | OpEq => SFeqb x v
  end.

(** One element of [series op v] with [v] a float: a string equals no
    float and cannot be ordered against one. *)
Definition compare_cell (op : cmpop) (c : cell) (v : float) : result bool :=
  match c with
  | Num x => Ok (compare_float op x v)
  | Str _ => match op with OpEq => Ok false | _ => Raise TypeError end
  end.

Fixpoint compare_series (op : cmpop) (ser : list cell) (v : float) : result (list bool) :=
  match ser with
  | [] => Ok []
  | c :: ser' =>
      rbind (compare_cell op c v) (λ b,
      rbind (compare_series op ser' v) (λ bs, Ok (b :: bs)))
  end.

(** [series.isin(values)] with [values] a list of strings. *)
Definition isin (ser : list cell) (values : list string) : list bool :=
  map (λ c, match c with Str s => bool_decide (s ∈ values) | Num _ => false end) ser.

(** The positions of the listed columns, when every label is a column. *)
Fixpoint col_positions (hs cols : list string) : option (list nat) :=
  match hs with
  | [] => Some []
  | h :: hs' =>
      match col_pos h cols with
      | None => None
      | Some i => cons i <$> col_positions hs' cols
      end
  end.

(** The members of a list, each once, in the order of their first
    occurrence. *)
Fixpoint unique (l : list string) : list string :=
  match l with
  | [] => []
  | x :: l' => x :: List.filter (λ y, negb (String.eqb y x)) (unique l')
  end.

(** The listed labels that are no column. *)
Definition not_found (hs cols : list string) : list string :=
  unique (List.filter (λ h, negb (bool_decide (h ∈ cols))) hs).

(** [df[[h1, ..., hn]]]: a new frame with exactly the listed columns, in
    the listed order.  When a label is no column it is a KeyError whose
    message names the labels not found; the exception carries those
    labels, each once, and not the wording of the message (which is
    another one when none of the labels is a column). *)
Definition getitem_list (df : DataFrame) (hs : list string) : result DataFrame :=
  match col_positions hs (columns df) with
  | Some ps => Ok (Frame hs (map (λ r, Row (name r) (map (λ i, cell_at i r) ps)) (rows df)))
  | None => Raise (KeyErrorIndex (not_found hs (columns df)))
  end.

(** [isna]: the missing value is NaN. *)
Definition isna (c : cell) : bool :=
  match c with
  | Num NaN => true
  | _ => false
  end.

(** [df.dropna()]: the records with no missing value in any column. *)
Definition complete (r : row) : bool := forallb (λ c, negb (isna c)) (cells r).

Definition dropna (df : DataFrame) : DataFrame :=
  Frame (columns df) (List.filter complete (rows df)).

(** [df[h].to_numpy()] on a frame whose column names may repeat (a
    selection [df[[...]]] repeats a name listed twice): one column called
    [h] gives a one-dimensional array, several give a two-dimensional array
    with one line per record. *)
Inductive ndarray : Type :=
| Arr1 (xs : list cell)
| Arr2 (xss : list (list cell)).

Fixpoint all_pos (h : string) (cols : list string) (i : nat) : list nat :=
  match cols with
  | [] => []
  | c :: cols' => if String.eqb h c then i :: all_pos h cols' (S i) else all_pos h cols' (S i)
  end.

Definition getitem_to_numpy (df : DataFrame) (h : string) : result ndarray :=
  match all_pos h (columns df) 0 with
  | [] => Raise (KeyError h)
  | [i] => Ok (Arr1 (map (cell_at i) (rows df)))
  | ps => Ok (Arr2 (map (λ r, map (λ i, cell_at i r) ps) (rows df)))
  end.

Definition len (a : ndarray) : nat :=
  match a with
  | Arr1 xs => length xs
  | Arr2 xss => length xss
  end.

(** ** The store and the state of a [StarDust] object *)

(** The two attributes of the object, each a reference into the store. *)
Record StarDust : Type := Self { db : nat; _db : nat }.

Record state : Type := State { heap : list DataFrame; self : StarDust }.

(** A method body: it reads and writes the state and returns or raises. *)
Definition M (A : Type) : Type := state → result A * state.

Definition ret {A} (a : A) : M A := λ s, (Ok a, s).

Definition raise {A} (e : exn) : M A := λ s, (Raise e, s).

Definition bind {A B} (m : M A) (k : A → M B) : M B :=
  λ s, match m s with
       | (Ok a, s') => k a s'
       | (Raise e, s') => (Raise e, s')
       end.

Notation "x <- m ;; k" := (bind m (λ x, k))
  (at level 100, m at next level, right associativity).
Notation "m ;;; k" := (bind m (λ _, k))
  (at level 100, right associativity).

(** A pure computation that may raise. *)
Definition lift {A} (r : result A) : M A := λ s, (r, s).

(** Reading the object behind a reference. *)
Definition load (p : nat) : M DataFrame :=
  λ s, match heap s !! p with
       | Some df => (Ok df, s)
       | None => (Raise (Dangling p), s)
       end.

(** A new object: it gets the next free reference. *)
Definition new (df : DataFrame) : M nat :=
  λ s, (Ok (length (heap s)), State (heap s ++ [df]) (self s)).

(** Overwriting an object where it stands. *)
Definition store (p : nat) (df : DataFrame) : M unit :=
  λ s, (Ok tt, State (<[p := df]> (heap s)) (self s)).

Definition get_db : M nat := λ s, (Ok (db (self s)), s).
Definition get__db : M nat := λ s, (Ok (_db (self s)), s).
Definition set_db (p : nat) : M unit :=
  λ s, (Ok tt, State (heap s) (Self p (_db (self s)))).
Definition set__db (p : nat) : M unit :=
  λ s, (Ok tt, State (heap s) (Self (db (self s)) p)).

(** [obj.copy(deep=True)], also [obj.copy()]: a new object with the same
    content. *)
Definition copy (p : nat) : M nat := df <- load p ;; new df.

(** [obj.dropna(inplace=True)]. *)
Definition dropna_inplace (p : nat) : M unit := df <- load p ;; store p (dropna df).

(** ** The methods of [StarDust] *)

(** [self.db = pd.read_csv(filepath, index_col=0)] and
    [self._db = self.db.copy(deep=True)]; [csv] is the frame [read_csv]
    returns for the file. *)
Definition __init__ (csv : DataFrame) : M unit :=
  p <- new csv ;;
  set_db p ;;;
  d <- get_db ;;
  q <- copy d ;;
  set__db q.

(** The object before [__init__] has run: an empty store. *)
Definition blank : state := State [] (Self 0 0).

(** [StarDust(fname)]: the state of the new object. *)
Definition construct (csv : DataFrame) : state := snd (__init__ csv blank).

(** The column names the methods build with f-strings:
    [f"{a}/{b}"], [f"d({hdr_ratio})"] and [f"err[{hdr}]"]. *)
Definition ratio_name (a b : string) : string := a +:+ "/" +:+ b.
Definition delta_name (a b : string) : string := "d(" +:+ ratio_name a b +:+ ")".
Definition err_name (h : string) : string := "err[" +:+ h +:+ "]".

Definition header_ratio (iso1 iso2 : string) : M (string * bool) :=
  d <- get_db ;;
  df <- load d ;;
  let header := columns df in
  a <- lift (create_db_iso iso1) ;;
  b <- lift (create_db_iso iso2) ;;
  let hdr_ratio := ratio_name a b in
  let hdr_delta := delta_name a b in
  if bool_decide (hdr_delta ∈ header) then ret (hdr_delta, true)
  else if bool_decide (hdr_ratio ∈ header) then ret (hdr_ratio, false)
  else ret ("none", false).

(** The dictionary [comp_dict] of [filter_value], in the order it is
    written; the values are the operators of the evaluated expression. *)
Definition comp_dict : list (string * cmpop) :=
  [ ("<", OpLt); (">", OpGt); ("<=", OpLe); ("=<", OpLe);
    (">=", OpGe); ("=>", OpGe); ("=", OpEq) ].

Fixpoint dict_get {V} (d : list (string * V)) (k : string) : option V :=
  match d with
  | [] => None
  | (k', v) :: d' => if String.eqb k k' then Some v else dict_get d' k
  end.

(** The text that the f-string puts for [value] in the evaluated
    expression is [repr(value)].  For a finite float it is a literal that
    reads back as the same float.  For the others it is [nan], [inf] or
    [-inf], which the expression reads as a name; no such name is defined
    where [eval] runs. *)
Definition eval_repr (value : float) : result float :=
  match value with
  | S754_nan => Raise (NameError "nan")
  | S754_infinity _ => Raise (NameError "inf")
  | _ => Ok value
  end.

(** [eval(f"self.db[hdr] {op} {value}")]: the column, then the right
    operand, then the comparison. *)
Definition eval_comparison (hdr : string) (op : cmpop) (value : float) : M (list bool) :=
  d <- get_db ;;
  df <- load d ;;
  ser <- lift (getitem df hdr) ;;
  v <- lift (eval_repr value) ;;
  lift (compare_series op ser v).

Definition filter_value (value : float) (iso1 iso2 comparator : string) (err : bool)
  : M unit :=
  r <- header_ratio iso1 iso2 ;;
  let hdr := fst r in
  let hdr := if err then err_name hdr else hdr in
  match dict_get comp_dict comparator with
  | None => raise (ValueError ("Comparator " +:+ comparator +:+ " is not valid."))
  | Some op =>
      mask <- eval_comparison hdr op value ;;
      d <- get_db ;;
      df <- load d ;;
      p <- new (getitem_mask df mask) ;;
      set_db p
  end.

(** The argument of [filter_type]: one string or a list of strings. *)
Inductive grain_types : Type :=
| OneType (s : string)
| TypeList (l : list string).

Definition filter_type (grain_type : grain_types) : M unit :=
  let grain_type :=
    match grain_type with
    | OneType s => [s]
    | TypeList l => l
    end in
  d <- get_db ;;
  df <- load d ;;
  ser <- lift (getitem df "PGD Type") ;;
  p <- new (getitem_mask df (isin ser grain_type)) ;;
  set_db p.

Definition reset : M unit :=
  b <- get__db ;;
  p <- copy b ;;
  set_db p.

Definition return_ratios (isos1 isos2 : string * string)
  : M (ndarray * ndarray * ndarray * ndarray) :=
  rx <- header_ratio (fst isos1) (snd isos1) ;;
  ry <- header_ratio (fst isos2) (snd isos2) ;;
  let hdr_x := fst rx in
  let hdr_y := fst ry in
  let hdr_x_err := err_name hdr_x in
  let hdr_y_err := err_name hdr_y in
  d <- get_db ;;
  w <- load d ;;
  sel <- lift (getitem_list w [hdr_x; hdr_y; hdr_x_err; hdr_y_err]) ;;
  p <- new sel ;;
  df <- copy p ;;
  dropna_inplace df ;;;
  fin <- load df ;;
  xdata <- lift (getitem_to_numpy fin hdr_x) ;;
  ydata <- lift (getitem_to_numpy fin hdr_y) ;;
  xerr <- lift (getitem_to_numpy fin hdr_x_err) ;;
  yerr <- lift (getitem_to_numpy fin hdr_y_err) ;;
  ret (xdata, ydata, xerr, yerr).

(** ** Vocabulary of the statements *)

(** What a comparison operator asks of the order of two floats;
    [None] is the unordered outcome, when one of them is NaN. *)
Definition holds (op : cmpop) (o : option comparison) : bool :=
  match op, o with
  | OpLt, Some Lt => true
  | OpGt, Some Gt => true
  | OpLe, Some (Lt | Eq) => true
  | OpGe, Some (Gt | Eq) => true
  | OpEq, Some Eq => true
  | _, _ => false
  end.

(** [cell op v] for a cell of the target column. *)
Definition satisfies (op : cmpop) (v : float) (c : cell) : bool :=
  match c with
  | Num x => holds op (SFcompare x v)
  | Str _ => false
  end.

Definition is_num (c : cell) : bool :=
  match c with
  | Num _ => true
  | Str _ => false
  end.

(** A float that is a number: neither NaN nor an infinity. *)
Definition is_number (v : float) : bool :=
  match v with
  | S754_zero _ | S754_finite _ _ _ => true
  | S754_infinity _ | S754_nan => false
  end.

(** Number of occurrences of the separator in a label. *)
Fixpoint count_sep (sep : ascii) (s : string) : nat :=
  match s with
  | EmptyString => 0
  | String c rest => (if Ascii.eqb c sep then 1 else 0) + count_sep sep rest
  end.

(** ** Reading a state *)

(** The frames behind [self.db] and [self._db]. *)
Definition working (s : state) : option DataFrame := heap s !! db (self s).
Definition backup (s : state) : option DataFrame := heap s !! _db (self s).

(** Both attributes point into the store. *)
Definition valid (s : state) : Prop := is_Some (working s) ∧ is_Some (backup s).

(** A label of the documented shape: exactly one separator, and text on
    both sides of it. *)
Definition well_formed_label (iso : string) : bool :=
  Nat.eqb (count_sep "-" iso) 1
  && forallb (λ piece, negb (String.eqb piece "")) (str_split "-" iso).

(** The state after [self.db = <a new frame df>]: the frame is a new object
    and [self.db] points to it; nothing else moves. *)
Definition rebind_db (s : state) (df : DataFrame) : state :=
  State (heap s ++ [df]) (Self (length (heap s)) (_db (self s))).

(** The comparator strings that [filter_value] documents. *)
Definition comparators : list string := ["<"; ">"; "<="; "=<"; ">="; "=>"; "="].

(** The records of a frame whose value in the column at position [i]
    stands in the relation [op] to [v]. *)
Definition satisfying (op : cmpop) (v : float) (i : nat) (rs : list row) : list row :=
  List.filter (λ r, satisfies op v (cell_at i r)) rs.

(** The column at position [i] holds floats only (a float64 column). *)
Definition numeric_column (i : nat) (df : DataFrame) : bool :=
  forallb (λ r, is_num (cell_at i r)) (rows df).

(** [s'] holds a working table with the columns of [w] and some of its
    records: none added, none repeated, none moved. *)
Definition narrowed (w : DataFrame) (s' : state) : Prop :=
  ∃ w', working s' = Some w' ∧ columns w' = columns w ∧
        rows w' `sublist_of` rows w ∧
        (∀ r, r ∈ rows w' → r ∈ rows w) ∧
        (NoDup (rows w) → NoDup (rows w')).

(** The calls a client can make on a constructed object. *)
Inductive call : Type :=
| FilterValue (value : float) (iso1 iso2 comparator : string) (err : bool)
| FilterType (grain_type : grain_types)
| HeaderRatio (iso1 iso2 : string)
| Reset
| ReturnRatios (isos1 isos2 : string * string).

(** The state a call leaves, whether it returns or raises. *)
Definition exec (c : call) (s : state) : state :=
  match c with
  | FilterValue value iso1 iso2 comparator err =>
      snd (filter_value value iso1 iso2 comparator err s)
  | FilterType grain_type => snd (filter_type grain_type s)
  | HeaderRatio iso1 iso2 => snd (header_ratio iso1 iso2 s)
  | Reset => snd (reset s)
  | ReturnRatios isos1 isos2 => snd (return_ratios isos1 isos2 s)
  end.

Definition exec_all (cs : list call) (s : state) : state :=
  foldl (λ s c, exec c s) s cs.

(** The working table has the columns of the backup table and some of
    its records, in their order. *)
Definition table_inv (s : state) : Prop :=
  ∃ w b, working s = Some w ∧ backup s = Some b ∧
         columns w = columns b ∧ rows w `sublist_of` rows b.

(** [table_inv] with the backup table named: it is [b]. *)
Definition anchored (b : DataFrame) (s : state) : Prop :=
  backup s = Some b ∧
  ∃ w, working s = Some w ∧ columns w = columns b ∧ rows w `sublist_of` rows b.

(** The values of an array, line by line. *)
Definition values (a : ndarray) : list cell :=
  match a with
  | Arr1 xs => xs
  | Arr2 xss => concat xss
  end.

(** The four arrays that [return_ratios] reads from the frame [fin]. *)
Definition arrays (fin : DataFrame) (hx hy : string)
  : result (ndarray * ndarray * ndarray * ndarray) :=
  rbind (getitem_to_numpy fin hx) (λ xdata,
  rbind (getitem_to_numpy fin hy) (λ ydata,
  rbind (getitem_to_numpy fin (err_name hx)) (λ xerr,
  rbind (getitem_to_numpy fin (err_name hy)) (λ yerr,
  Ok (xdata, ydata, xerr, yerr))))).

(** The record that the selection [df[[hx, hy, hx_err, hy_err]]] keeps of
    a record [r], the four columns being at positions [ix iy iex iey]. *)
Definition four (ix iy iex iey : nat) (r : row) : row :=
  Row (name r) [cell_at ix r; cell_at iy r; cell_at iex r; cell_at iey r].

(** A record with none of its four values missing. *)
Definition complete4 (ix iy iex iey : nat) (r : row) : bool :=
  negb (isna (cell_at ix r)) && negb (isna (cell_at iy r))
  && negb (isna (cell_at iex r)) && negb (isna (cell_at iey r)).

(** The list of grain types that [filter_type] tests against: a single
    string counts as the list holding it. *)
Definition type_list (g : grain_types) : list string :=
  match g with
  | OneType t => [t]
  | TypeList l => l
  end.

(** The record has, in the column at position [i], a string that is one
    of [types]. *)
Definition type_in (types : list string) (i : nat) (r : row) : bool :=
  match cell_at i r with
  | Str t => bool_decide (t ∈ types)
  | Num _ => false
  end.

(** What a call hands back to its caller. *)
Inductive answer : Type :=
| Done
| Header (h : string * bool)
| Arrays (a : ndarray * ndarray * ndarray * ndarray).

Definition rmap {A B} (f : A → B) (r : result A) : result B :=
  match r with
  | Ok a => Ok (f a)
  | Raise e => Raise e
  end.

(** The answer or the exception of a call. *)
Definition run (c : call) (s : state) : result answer :=
  match c with
  | FilterValue value iso1 iso2 comparator err =>
      rmap (λ _, Done) (fst (filter_value value iso1 iso2 comparator err s))
  | FilterType grain_type => rmap (λ _, Done) (fst (filter_type grain_type s))
  | HeaderRatio iso1 iso2 => rmap Header (fst (header_ratio iso1 iso2 s))
  | Reset => rmap (λ _, Done) (fst (reset s))
  | ReturnRatios isos1 isos2 => rmap Arrays (fst (return_ratios isos1 isos2 s))
  end.

(** What a client sees of a sequence of calls: the answer or exception
    of each, in order. *)
Fixpoint trace (cs : list call) (s : state) : list (result answer) :=
  match cs with
  | [] => []
  | c :: cs' => run c s :: trace cs' (exec c s)
  end.

(** Two states whose working tables have the same content and whose
    backup tables have the same content. *)
Definition same_tables (s t : state) : Prop :=
  ∃ w b, working s = Some w ∧ working t = Some w ∧
         backup s = Some b ∧ backup t = Some b.

(** A small table for examples. *)
Definition f1 : float := S754_finite false 1 0.     (* 1.0 *)
Definition f2 : float := S754_finite false 1 1.     (* 2.0 *)
Definition f4 : float := S754_finite false 1 2.     (* 4.0 *)

Definition demo : DataFrame :=
  Frame [ "PGD Type"; "d(29Si/28Si)"; "err[d(29Si/28Si)]"; "30Si/28Si"; "err[30Si/28Si]" ]
        [ Row "g1" [ Str "M"; Num f1; Num f1; Num f2; Num f1 ];
          Row "g2" [ Str "X"; Num f4; Num f1; Num NaN; Num f1 ];
          Row "g3" [ Str "M"; Num NaN; Num f1; Num f4; Num f1 ];
          Row "g4" [ Str "M"; Num f2; Num NaN; Num f1; Num f1 ] ].

(** A second table, with complete records on both sides of a filter. *)
Definition sample : DataFrame :=
  Frame [ "PGD Type"; "29Si/28Si"; "err[29Si/28Si]"; "30Si/28Si"; "err[30Si/28Si]" ]
        [ Row "h1" [ Str "M"; Num f1; Num f1; Num f2; Num f1 ];
          Row "h2" [ Str "X"; Num f2; Num f1; Num f4; Num f1 ];
          Row "h3" [ Str "M"; Num f4; Num f1; Num f1; Num f1 ];
          Row "h4" [ Str "M"; Num f2; Num f1; Num NaN; Num f1 ] ].

(** A table whose ratio column holds a text. *)
Definition textual : DataFrame :=
  Frame [ "30Si/28Si" ] [ Row "g1" [ Num f1 ]; Row "g2" [ Str "n.d." ] ].

(** * Properties *)

(** ** Frames *)

Section Frames.

Lemma select_map (p : row → bool) (rs : list row) :
  select rs (map p rs) = List.filter p rs.
Proof.
  induction rs as [|r rs IH]; simpl; [done|].
  rewrite IH. by destruct (p r).
Qed.

Lemma select_sublist (rs : list row) (mask : list bool) :
  select rs mask `sublist_of` rs.
Proof.
  revert mask. induction rs as [|r rs IH]; intros [|b mask]; simpl;
    try apply sublist_nil_l.
  destruct b; [apply sublist_skip | apply sublist_cons]; apply IH.
Qed.

Lemma filter_sublist (p : row → bool) (rs : list row) :
  List.filter p rs `sublist_of` rs.
Proof. rewrite <- select_map. apply select_sublist. Qed.

Lemma col_pos_lookup (h : string) (cols : list string) (i : nat) :
  col_pos h cols = Some i → cols !! i = Some h.
Proof.
  revert i. induction cols as [|c cols IH]; intros i; simpl; [done|].
  destruct (String.eqb_spec h c) as [->|Hne].
  - by intros [= <-].
  - destruct (col_pos h cols) as [j|]; simpl; [|done].
    intros [= <-]. simpl. by apply IH.
Qed.

Lemma col_pos_elem_of (h : string) (cols : list string) :
  h ∈ cols ↔ is_Some (col_pos h cols).
Proof.
  induction cols as [|c cols IH]; simpl.
  - split; [by intros ?%elem_of_nil | by intros [? ?]].
  - destruct (String.eqb_spec h c) as [->|Hne].
    + split; [by eauto | intros _; apply list_elem_of_here].
    + rewrite elem_of_cons, IH, fmap_is_Some. tauto.
Qed.

Lemma col_pos_None (h : string) (cols : list string) :
  h ∉ cols ↔ col_pos h cols = None.
Proof. rewrite col_pos_elem_of, eq_None_not_Some. done. Qed.

End Frames.

(** ** Comparisons *)

Section Comparisons.

Lemma SFcompare_swap (x y : float) :
  SFcompare y x = CompOpp <$> SFcompare x y.
Proof.
  destruct x as [sx|sx| |sx mx ex], y as [sy|sy| |sy my ey]; simpl;
    try done; try (by destruct sx); try (by destruct sy);
    try (by destruct sx, sy).
  destruct sx, sy; simpl; try done.
  - rewrite (Z.compare_antisym ex ey).
    destruct (ex ?= ey)%Z; simpl; try done.
    by rewrite (Pos.compare_cont_antisym mx my Eq).
  - rewrite (Z.compare_antisym ex ey).
    destruct (ex ?= ey)%Z; simpl; try done.
    by rewrite (Pos.compare_cont_antisym mx my Eq).
Qed.

Lemma compare_float_holds (op : cmpop) (x v : float) :
  compare_float op x v = holds op (SFcompare x v).
Proof.
  destruct op; simpl; unfold SFltb, SFleb, SFeqb;
    rewrite ?(SFcompare_swap x v);
    by destruct (SFcompare x v) as [[]|].
Qed.

Lemma satisfies_not_missing (op : cmpop) (v : float) (c : cell) :
  satisfies op v c = true → isna c = false.
Proof. destruct c as [[]|]; simpl; try done. by destruct op. Qed.

Lemma compare_series_Ok (op : cmpop) (ser : list cell) (v : float) (mask : list bool) :
  compare_series op ser v = Ok mask → mask = map (satisfies op v) ser.
Proof.
  revert mask. induction ser as [|c ser IH]; intros mask; simpl.
  - by intros [= <-].
  - destruct c as [x|t]; simpl.
    + destruct (compare_series op ser v) as [bs|e]; simpl; [|done].
      intros [= <-]. by rewrite compare_float_holds, (IH bs).
    + destruct op; simpl; try done.
      destruct (compare_series OpEq ser v) as [bs|e]; simpl; [|done].
      intros [= <-]. by rewrite (IH bs).
Qed.

Lemma compare_series_numeric (op : cmpop) (ser : list cell) (v : float) :
  forallb is_num ser = true →
  compare_series op ser v = Ok (map (satisfies op v) ser).
Proof.
  induction ser as [|c ser IH]; simpl; [done|].
  intros [Hc Hser]%andb_prop. rewrite (IH Hser).
  destruct c as [x|t]; [|done]. simpl. by rewrite compare_float_holds.
Qed.

Lemma eval_repr_number (v : float) : is_number v = true → eval_repr v = Ok v.
Proof. by destruct v. Qed.

End Comparisons.

(** ** Isotope names *)

Section Codec.

Local Open Scope nat_scope.

Lemma str_split_nonempty (sep : ascii) (s : string) : str_split sep s ≠ [].
Proof.
  destruct s as [|c rest]; simpl; [done|].
  destruct (Ascii.eqb c sep); [done|]. by destruct (str_split sep rest).
Qed.

Lemma str_split_no_sep (sep : ascii) (s : string) :
  count_sep sep s = 0 → str_split sep s = [s].
Proof.
  induction s as [|c rest IH]; simpl; [done|].
  destruct (Ascii.eqb c sep); simpl; [done|].
  intros Hrest. by rewrite (IH Hrest).
Qed.

Lemma str_split_length (sep : ascii) (s : string) :
  length (str_split sep s) = S (count_sep sep s).
Proof.
  induction s as [|c rest IH]; simpl; [done|].
  destruct (Ascii.eqb c sep); simpl; [by rewrite IH|].
  pose proof (str_split_nonempty sep rest) as Hne.
  destruct (str_split sep rest); [done|]. by rewrite <- IH.
Qed.

Lemma str_split_first (sep : ascii) (e rest : string) :
  count_sep sep e = 0 →
  str_split sep (e +:+ String sep rest) = e :: str_split sep rest.
Proof.
  induction e as [|c e IH]; simpl.
  - by rewrite Ascii.eqb_refl.
  - destruct (Ascii.eqb c sep); simpl; [done|].
    intros He. by rewrite (IH He).
Qed.

Lemma create_db_iso_no_sep (iso : string) :
  count_sep "-" iso = 0 → create_db_iso iso = Raise IndexError.
Proof. intros H. unfold create_db_iso. by rewrite (str_split_no_sep _ _ H). Qed.

Lemma create_db_iso_one_sep (e m : string) :
  count_sep "-" e = 0 → count_sep "-" m = 0 →
  create_db_iso (e +:+ "-" +:+ m) = Ok (m +:+ e).
Proof.
  intros He Hm. unfold create_db_iso.
  change ("-" +:+ m) with (String "-" m).
  by rewrite (str_split_first _ _ _ He), (str_split_no_sep _ _ Hm).
Qed.

Lemma create_db_iso_more_sep (e m rest : string) :
  count_sep "-" e = 0 → count_sep "-" m = 0 →
  create_db_iso (e +:+ "-" +:+ m +:+ "-" +:+ rest) = Ok (m +:+ e).
Proof.
  intros He Hm. unfold create_db_iso.
  change ("-" +:+ m +:+ "-" +:+ rest) with (String "-" (m +:+ String "-" rest)).
  by rewrite (str_split_first _ _ _ He), (str_split_first _ _ _ Hm).
Qed.

Lemma create_db_iso_raises_iff (iso : string) :
  (∃ e, create_db_iso iso = Raise e) ↔ count_sep "-" iso = 0.
Proof.
  split.
  - intros [e He]. unfold create_db_iso in He.
    pose proof (str_split_length "-" iso) as Hlen.
    destruct (str_split "-" iso) as [|x [|y l]]; simpl in *; [lia|lia|done].
  - intros H. exists IndexError. by apply create_db_iso_no_sep.
Qed.

End Codec.

(** ** Running the methods *)

Section Methods.

Local Open Scope nat_scope.

Implicit Types (s : state) (w : DataFrame) (v : float).

#[local] Arguments dict_get : simpl never.
#[local] Arguments err_name : simpl never.

Lemma working_lt s w : working s = Some w → db (self s) < length (heap s).
Proof. unfold working. apply lookup_lt_Some. Qed.

Lemma backup_lt s b : backup s = Some b → _db (self s) < length (heap s).
Proof. unfold backup. apply lookup_lt_Some. Qed.

Lemma working_rebind_db s df : working (rebind_db s df) = Some df.
Proof.
  unfold working, rebind_db. simpl.
  rewrite lookup_app_r by lia. by rewrite Nat.sub_diag.
Qed.

Lemma backup_rebind_db s df : is_Some (backup s) → backup (rebind_db s df) = backup s.
Proof.
  intros [b Hb]. unfold backup, rebind_db in *. simpl.
  rewrite lookup_app_l; [done|]. by eapply lookup_lt_Some.
Qed.

(** [header_ratio] returns or raises in the state it was called in. *)
Lemma header_ratio_state (iso1 iso2 : string) s :
  snd (header_ratio iso1 iso2 s) = s.
Proof.
  unfold header_ratio, bind, get_db, load, lift, ret. simpl.
  destruct (heap s !! db (self s)); simpl; [|done].
  destruct (create_db_iso iso1); simpl; [|done].
  destruct (create_db_iso iso2); simpl; [|done].
  repeat case_bool_decide; done.
Qed.

Lemma header_ratio_pair (iso1 iso2 : string) s :
  header_ratio iso1 iso2 s = (fst (header_ratio iso1 iso2 s), s).
Proof.
  rewrite <- (header_ratio_state iso1 iso2 s) at 3.
  by destruct (header_ratio iso1 iso2 s).
Qed.

(** Its answer depends on the state through the column names only. *)
Lemma header_ratio_columns (iso1 iso2 : string) s s' w w' :
  working s = Some w → working s' = Some w' → columns w = columns w' →
  fst (header_ratio iso1 iso2 s) = fst (header_ratio iso1 iso2 s').
Proof.
  unfold working. intros Hw Hw' Hcols.
  unfold header_ratio, bind, get_db, load, lift, ret. simpl.
  rewrite Hw, Hw', Hcols. simpl.
  destruct (create_db_iso iso1); simpl; [|done].
  destruct (create_db_iso iso2); simpl; [|done].
  repeat case_bool_decide; done.
Qed.

Lemma header_ratio_dangling (iso1 iso2 : string) s :
  working s = None →
  header_ratio iso1 iso2 s = (Raise (Dangling (db (self s))), s).
Proof.
  unfold working. intros Hw.
  unfold header_ratio, bind, get_db, load. simpl. by rewrite Hw.
Qed.

(** [filter_value], when every step goes through. *)
Lemma filter_value_run v (iso1 iso2 c : string) (err : bool) s w
    (hdr : string) (delta : bool) (op : cmpop) (i : nat) v' (mask : list bool) :
  working s = Some w →
  fst (header_ratio iso1 iso2 s) = Ok (hdr, delta) →
  dict_get comp_dict c = Some op →
  col_pos (if err then err_name hdr else hdr) (columns w) = Some i →
  eval_repr v = Ok v' →
  compare_series op (map (cell_at i) (rows w)) v' = Ok mask →
  filter_value v iso1 iso2 c err s = (Ok tt, rebind_db s (getitem_mask w mask)).
Proof.
  intros Hw Hh Hc Hi Hv Hm. unfold filter_value, bind.
  rewrite header_ratio_pair, Hh. simpl. rewrite Hc.
  unfold eval_comparison, bind, get_db, load, lift, new, set_db, getitem. simpl.
  unfold working in Hw. rewrite Hw. simpl.
  rewrite Hi. simpl. rewrite Hv. simpl.
  rewrite Hm. simpl. rewrite Hw. done.
Qed.

(** Whatever happens, [filter_value] either raises in the state it was
    called in, or rebinds [self.db] to a selection of its records. *)
Lemma filter_value_outcome v (iso1 iso2 c : string) (err : bool) s w :
  working s = Some w →
  (∃ e, filter_value v iso1 iso2 c err s = (Raise e, s)) ∨
  (∃ mask, filter_value v iso1 iso2 c err s
             = (Ok tt, rebind_db s (getitem_mask w mask))).
Proof.
  intros Hw. unfold filter_value, bind.
  rewrite header_ratio_pair.
  destruct (fst (header_ratio iso1 iso2 s)) as [[hdr delta]|e]; [|by eauto].
  simpl. destruct (dict_get comp_dict c) as [op|]; [|left; by eexists].
  unfold eval_comparison, bind, get_db, load, lift, new, set_db. simpl.
  unfold working in Hw. rewrite Hw. simpl.
  destruct (getitem w _) as [ser|e]; simpl; [|by eauto].
  destruct (eval_repr v) as [v'|e]; simpl; [|by eauto].
  destruct (compare_series op ser v') as [mask|e]; simpl; [|by eauto].
  rewrite Hw. right. by exists mask.
Qed.

Lemma filter_value_dangling v (iso1 iso2 c : string) (err : bool) s :
  working s = None →
  filter_value v iso1 iso2 c err s = (Raise (Dangling (db (self s))), s).
Proof.
  intros Hw. unfold filter_value, bind. by rewrite header_ratio_dangling.
Qed.

Lemma filter_type_outcome (g : grain_types) s w :
  working s = Some w →
  (∃ e, filter_type g s = (Raise e, s)) ∨
  (∃ mask, filter_type g s = (Ok tt, rebind_db s (getitem_mask w mask))).
Proof.
  intros Hw. unfold filter_type, bind, get_db, load, lift, new, set_db. simpl.
  unfold working in Hw. rewrite Hw. simpl.
  destruct (getitem w "PGD Type") as [ser|e]; simpl; [|by eauto].
  right. by eexists.
Qed.

Lemma filter_type_dangling (g : grain_types) s :
  working s = None → filter_type g s = (Raise (Dangling (db (self s))), s).
Proof.
  unfold working. intros Hw.
  unfold filter_type, bind, get_db, load. simpl. by rewrite Hw.
Qed.

Lemma reset_run s b :
  backup s = Some b → reset s = (Ok tt, rebind_db s b).
Proof.
  unfold backup. intros Hb.
  unfold reset, bind, get__db, copy, bind, load, new, set_db. simpl.
  by rewrite Hb.
Qed.

End Methods.

(** ** Filtering by value *)

Section FilterValue.

Local Open Scope nat_scope.

Implicit Types (s : state) (w : DataFrame) (v : float).

#[local] Arguments dict_get : simpl never.
#[local] Arguments err_name : simpl never.

Lemma numeric_column_series (i : nat) w :
  forallb is_num (map (cell_at i) (rows w)) = numeric_column i w.
Proof.
  unfold numeric_column. induction (rows w) as [|r rs IH]; simpl; [done|].
  by rewrite IH.
Qed.

Lemma numeric_column_filter (i : nat) w (p : row → bool) :
  numeric_column i w = true →
  numeric_column i (Frame (columns w) (List.filter p (rows w))) = true.
Proof.
  unfold numeric_column. simpl. induction (rows w) as [|r rs IH]; simpl; [done|].
  intros [Hr Hrs]%andb_prop. destruct (p r); simpl; [rewrite Hr|]; by apply IH.
Qed.

Lemma filter_filter (p q : row → bool) (rs : list row) :
  List.filter q (List.filter p rs) = List.filter (λ r, p r && q r) rs.
Proof.
  induction rs as [|r rs IH]; simpl; [done|].
  destruct (p r); simpl; [|done]. destruct (q r); by rewrite IH.
Qed.

(** The run of [filter_value] on a float64 column with a value that
    is a number. *)
Lemma filter_value_numeric v (iso1 iso2 c : string) (err : bool) s w
    (hdr : string) (delta : bool) (op : cmpop) (i : nat) :
  working s = Some w →
  fst (header_ratio iso1 iso2 s) = Ok (hdr, delta) →
  col_pos (if err then err_name hdr else hdr) (columns w) = Some i →
  numeric_column i w = true →
  dict_get comp_dict c = Some op →
  is_number v = true →
  filter_value v iso1 iso2 c err s
    = (Ok tt, rebind_db s (Frame (columns w) (satisfying op v i (rows w)))).
Proof.
  intros Hw Hh Hi Hnum Hc Hv.
  rewrite (filter_value_run v iso1 iso2 c err s w hdr delta op i v
             (map (satisfies op v) (map (cell_at i) (rows w)))); try done.
  - unfold getitem_mask, satisfying.
    by rewrite map_map, (select_map (λ r, satisfies op v (cell_at i r))).
  - by apply eval_repr_number.
  - apply compare_series_numeric. by rewrite numeric_column_series.
Qed.

End FilterValue.

Section FilterValueClaims.

Local Open Scope nat_scope.

Implicit Types (s : state) (w : DataFrame) (v : float).

#[local] Arguments dict_get : simpl never.
#[local] Arguments err_name : simpl never.

Lemma compare_series_eq (ser : list cell) v :
  compare_series OpEq ser v = Ok (map (satisfies OpEq v) ser).
Proof.
  induction ser as [|c ser IH]; simpl; [done|].
  rewrite IH. by destruct c as [x|t].
Qed.

Lemma compare_series_Ok_numeric (op : cmpop) (ser : list cell) v (mask : list bool) :
  compare_series op ser v = Ok mask → op = OpEq ∨ forallb is_num ser = true.
Proof.
  intros H. destruct op; try (by left); right; revert mask H;
    (induction ser as [|c ser IH]; intros mask; simpl; [done|];
     destruct c as [x|t]; simpl; [|done];
     destruct (compare_series _ ser v) as [bs|] eqn:E; simpl; [|done];
     intros _; by apply (IH bs)).
Qed.

(** What a returning [filter_value] has done. *)
Lemma filter_value_returns v (iso1 iso2 c : string) (err : bool) s w
    (hdr : string) (delta : bool) (op : cmpop) (i : nat) (s' : state) :
  working s = Some w →
  fst (header_ratio iso1 iso2 s) = Ok (hdr, delta) →
  col_pos (if err then err_name hdr else hdr) (columns w) = Some i →
  dict_get comp_dict c = Some op →
  filter_value v iso1 iso2 c err s = (Ok tt, s') →
  is_number v = true ∧
  (op = OpEq ∨ numeric_column i w = true) ∧
  s' = rebind_db s (Frame (columns w) (satisfying op v i (rows w))).
Proof.
  intros Hw Hh Hi Hc. unfold filter_value, bind.
  rewrite header_ratio_pair, Hh. simpl. rewrite Hc.
  unfold eval_comparison, bind, get_db, load, lift, new, set_db, getitem. simpl.
  unfold working in Hw. rewrite Hw. simpl. rewrite Hi. simpl.
  destruct (eval_repr v) as [v'|] eqn:Hv; simpl; [|done].
  assert (v' = v ∧ is_number v = true) as [-> Hnum].
  { destruct v; simpl in Hv; try done; by injection Hv as <-. }
  destruct (compare_series op _ v) as [mask|] eqn:Hm; simpl; [|done].
  rewrite Hw. intros [= <-]. split; [done|].
  split.
  - destruct (compare_series_Ok_numeric _ _ _ _ Hm) as [?|Hall]; [by left|].
    right. by rewrite numeric_column_series in Hall.
  - apply compare_series_Ok in Hm as ->. unfold rebind_db, getitem_mask, satisfying.
    by rewrite map_map, (select_map (λ r, satisfies op v (cell_at i r))).
Qed.

(** With the equality operator any column will do. *)
Lemma filter_value_equality v (iso1 iso2 c : string) (err : bool) s w
    (hdr : string) (delta : bool) (i : nat) :
  working s = Some w →
  fst (header_ratio iso1 iso2 s) = Ok (hdr, delta) →
  col_pos (if err then err_name hdr else hdr) (columns w) = Some i →
  dict_get comp_dict c = Some OpEq →
  is_number v = true →
  filter_value v iso1 iso2 c err s
    = (Ok tt, rebind_db s (Frame (columns w) (satisfying OpEq v i (rows w)))).
Proof.
  intros Hw Hh Hi Hc Hv.
  rewrite (filter_value_run v iso1 iso2 c err s w hdr delta OpEq i v
             (map (satisfies OpEq v) (map (cell_at i) (rows w)))); try done.
  - unfold getitem_mask, satisfying.
    by rewrite map_map, (select_map (λ r, satisfies OpEq v (cell_at i r))).
  - by apply eval_repr_number.
  - apply compare_series_eq.
Qed.

Lemma satisfying_elem_of (op : cmpop) v (i : nat) (rs : list row) (r : row) :
  r ∈ satisfying op v i rs ↔ r ∈ rs ∧ satisfies op v (cell_at i r) = true.
Proof. unfold satisfying. rewrite !list_elem_of_In. apply filter_In. Qed.

(** Take a valid comparator [c] (operator [op]), any value [v], and
    a state where the pair (iso1, iso2) resolves to a header whose
    target column exists (at position [i]).  Whenever [filter_value]
    returns, the working table has the same columns and exactly the
    records of the previous working table whose target value satisfies
    [value op v], in their order, and none of them has a missing target
    value.  It returns exactly when [v] is a number and the column
    holds floats only (or the operator is ==). *)
Lemma filter_value_postcondition v (iso1 iso2 c : string) (err : bool) s w
    (hdr : string) (delta : bool) (op : cmpop) (i : nat) :
  working s = Some w →
  fst (header_ratio iso1 iso2 s) = Ok (hdr, delta) →
  col_pos (if err then err_name hdr else hdr) (columns w) = Some i →
  dict_get comp_dict c = Some op →
  (∀ s', filter_value v iso1 iso2 c err s = (Ok tt, s') →
     ∃ w', working s' = Some w' ∧
           columns w' = columns w ∧
           rows w' = satisfying op v i (rows w) ∧
           (∀ r, r ∈ rows w' ↔ r ∈ rows w ∧ satisfies op v (cell_at i r) = true) ∧
           (∀ r, r ∈ rows w' → isna (cell_at i r) = false)) ∧
  ((∃ s', filter_value v iso1 iso2 c err s = (Ok tt, s')) ↔
     is_number v = true ∧ (op = OpEq ∨ numeric_column i w = true)).
Proof.
  intros Hw Hh Hi Hc. split.
  - intros s' Hrun.
    destruct (filter_value_returns _ _ _ _ _ _ _ _ _ _ _ _ Hw Hh Hi Hc Hrun)
      as (_ & _ & ->).
    exists (Frame (columns w) (satisfying op v i (rows w))).
    split; [apply working_rebind_db|]. do 2 (split; [done|]). simpl.
    split; [apply satisfying_elem_of|].
    intros r [_ Hr]%satisfying_elem_of. by eapply satisfies_not_missing.
  - split.
    + intros [s' Hrun].
      by destruct (filter_value_returns _ _ _ _ _ _ _ _ _ _ _ _ Hw Hh Hi Hc Hrun)
        as (? & ? & _).
    + intros [Hv [->|Hnum]]; eexists.
      * by eapply filter_value_equality.
      * by eapply filter_value_numeric.
Qed.

(** Two calls of [filter_value], for a condition A and then a
    condition B (valid comparators, existing target columns): whenever
    both return, the working table has exactly the records of the
    table before the first call that satisfy A and B, in their order;
    and both return when the values are numbers and the columns hold
    floats. *)
Lemma filter_value_twice_postcondition vA vB (iso1A iso2A cA iso1B iso2B cB : string)
    (errA errB : bool) s w (hdrA hdrB : string) (deltaA deltaB : bool)
    (opA opB : cmpop) (iA iB : nat) :
  working s = Some w →
  fst (header_ratio iso1A iso2A s) = Ok (hdrA, deltaA) →
  fst (header_ratio iso1B iso2B s) = Ok (hdrB, deltaB) →
  col_pos (if errA then err_name hdrA else hdrA) (columns w) = Some iA →
  col_pos (if errB then err_name hdrB else hdrB) (columns w) = Some iB →
  dict_get comp_dict cA = Some opA → dict_get comp_dict cB = Some opB →
  (∀ s1 s2,
     filter_value vA iso1A iso2A cA errA s = (Ok tt, s1) →
     filter_value vB iso1B iso2B cB errB s1 = (Ok tt, s2) →
     ∃ w2, working s2 = Some w2 ∧
           columns w2 = columns w ∧
           rows w2 = List.filter (λ r, satisfies opA vA (cell_at iA r)
                                       && satisfies opB vB (cell_at iB r)) (rows w)) ∧
  (is_number vA = true → is_number vB = true →
   numeric_column iA w = true → numeric_column iB w = true →
   ∃ s1 s2,
     filter_value vA iso1A iso2A cA errA s = (Ok tt, s1) ∧
     filter_value vB iso1B iso2B cB errB s1 = (Ok tt, s2)).
Proof.
  intros Hw HhA HhB HiA HiB HcA HcB.
  set (w1 := Frame (columns w) (satisfying opA vA iA (rows w))).
  assert (Hw1 : working (rebind_db s w1) = Some w1) by apply working_rebind_db.
  assert (HhB1 : fst (header_ratio iso1B iso2B (rebind_db s w1)) = Ok (hdrB, deltaB)).
  { rewrite <- HhB. symmetry. by eapply header_ratio_columns. }
  split.
  - intros s1 s2 HA HB.
    destruct (filter_value_returns _ _ _ _ _ _ _ _ _ _ _ _ Hw HhA HiA HcA HA)
      as (_ & _ & ->). fold w1 in HB.
    destruct (filter_value_returns _ _ _ _ _ _ _ _ _ _ _ _ Hw1 HhB1 HiB HcB HB)
      as (_ & _ & ->).
    eexists. split; [apply working_rebind_db|]. split; [done|].
    simpl. unfold satisfying. apply filter_filter.
  - intros HvA HvB HnA HnB. exists (rebind_db s w1). eexists.
    split; [by eapply filter_value_numeric|].
    eapply filter_value_numeric; try done.
    by apply numeric_column_filter.
Qed.

(** The run of [filter_value] when it returns: a value that is a number
    and a float column, or the operator ==. *)
Lemma filter_value_number v (iso1 iso2 c : string) (err : bool) s w
    (hdr : string) (delta : bool) (op : cmpop) (i : nat) :
  working s = Some w →
  fst (header_ratio iso1 iso2 s) = Ok (hdr, delta) →
  col_pos (if err then err_name hdr else hdr) (columns w) = Some i →
  dict_get comp_dict c = Some op →
  is_number v = true →
  op = OpEq ∨ numeric_column i w = true →
  filter_value v iso1 iso2 c err s
    = (Ok tt, rebind_db s (Frame (columns w) (satisfying op v i (rows w)))).
Proof.
  intros Hw Hh Hi Hc Hv [->|Hnum].
  - by eapply filter_value_equality.
  - by eapply filter_value_numeric.
Qed.

(** C1, amended.  For a valid comparator [c] (operator [op]) and a value
    [v] that is a finite number, on a table where the pair (iso1, iso2)
    resolves to a header whose target column exists and holds floats
    only (any column when the operator is ==), [filter_value] returns;
    the working table then has the same columns and exactly the records
    of the previous working table whose target value satisfies
    [value op v], in their order; no remaining record has a missing
    target value. *)
Theorem filter_value_selects v (iso1 iso2 c : string) (err : bool) s w
    (hdr : string) (delta : bool) (op : cmpop) (i : nat) :
  working s = Some w →
  fst (header_ratio iso1 iso2 s) = Ok (hdr, delta) →
  col_pos (if err then err_name hdr else hdr) (columns w) = Some i →
  dict_get comp_dict c = Some op →
  is_number v = true →
  op = OpEq ∨ numeric_column i w = true →
  ∃ s' w',
    filter_value v iso1 iso2 c err s = (Ok tt, s') ∧
    working s' = Some w' ∧
    columns w' = columns w ∧
    rows w' = satisfying op v i (rows w) ∧
    (∀ r, r ∈ rows w' ↔ r ∈ rows w ∧ satisfies op v (cell_at i r) = true) ∧
    (∀ r, r ∈ rows w' → isna (cell_at i r) = false).
Proof.
  intros Hw Hh Hi Hc Hv Hcol.
  exists (rebind_db s (Frame (columns w) (satisfying op v i (rows w)))),
         (Frame (columns w) (satisfying op v i (rows w))).
  split; [by eapply filter_value_number|].
  split; [apply working_rebind_db|]. do 2 (split; [done|]). simpl.
  split; [apply satisfying_elem_of|].
  intros r [_ Hr]%satisfying_elem_of. by eapply satisfies_not_missing.
Qed.

Lemma numeric_or_eq_satisfying (op opA : cmpop) vA (i iA : nat) w :
  op = OpEq ∨ numeric_column i w = true →
  op = OpEq ∨ numeric_column i (Frame (columns w) (satisfying opA vA iA (rows w))) = true.
Proof. intros [->|Hn]; [by left|right]. by apply numeric_column_filter. Qed.

(** C5, amended.  Two calls of [filter_value], for a condition A and then
    a condition B, with valid comparators, values that are finite
    numbers and existing target columns that hold floats only (any
    column for the operator ==): both calls return, the second one
    filtering the table the first one left, and the working table then
    has the same columns and exactly the records of the table before the
    first call that satisfy A and B, in their order. *)
Theorem filter_value_cumulative vA vB (iso1A iso2A cA iso1B iso2B cB : string)
    (errA errB : bool) s w (hdrA hdrB : string) (deltaA deltaB : bool)
    (opA opB : cmpop) (iA iB : nat) :
  working s = Some w →
  fst (header_ratio iso1A iso2A s) = Ok (hdrA, deltaA) →
  fst (header_ratio iso1B iso2B s) = Ok (hdrB, deltaB) →
  col_pos (if errA then err_name hdrA else hdrA) (columns w) = Some iA →
  col_pos (if errB then err_name hdrB else hdrB) (columns w) = Some iB →
  dict_get comp_dict cA = Some opA → dict_get comp_dict cB = Some opB →
  is_number vA = true → is_number vB = true →
  opA = OpEq ∨ numeric_column iA w = true →
  opB = OpEq ∨ numeric_column iB w = true →
  ∃ s1 w1 s2 w2,
    filter_value vA iso1A iso2A cA errA s = (Ok tt, s1) ∧
    working s1 = Some w1 ∧
    rows w1 = satisfying opA vA iA (rows w) ∧
    filter_value vB iso1B iso2B cB errB s1 = (Ok tt, s2) ∧
    working s2 = Some w2 ∧
    columns w2 = columns w ∧
    rows w2 = satisfying opB vB iB (rows w1) ∧
    rows w2 = List.filter (λ r, satisfies opA vA (cell_at iA r)
                                && satisfies opB vB (cell_at iB r)) (rows w).
Proof.
  intros Hw HhA HhB HiA HiB HcA HcB HvA HvB HnA HnB.
  set (w1 := Frame (columns w) (satisfying opA vA iA (rows w))).
  set (w2 := Frame (columns w1) (satisfying opB vB iB (rows w1))).
  assert (Hw1 : working (rebind_db s w1) = Some w1) by apply working_rebind_db.
  exists (rebind_db s w1), w1, (rebind_db (rebind_db s w1) w2), w2.
  split; [by eapply filter_value_number|].
  split; [done|]. split; [done|].
  split.
  { eapply filter_value_number; try done.
    - rewrite <- HhB. symmetry. by eapply header_ratio_columns.
    - by apply numeric_or_eq_satisfying. }
  split; [apply working_rebind_db|]. do 2 (split; [done|]).
  simpl. unfold satisfying. apply filter_filter.
Qed.

End FilterValueClaims.

Lemma filter_value_selects_witness :
  ∃ s' w',
    filter_value f1 "Si-29" "Si-28" ">" false (construct demo) = (Ok tt, s') ∧
    working s' = Some w' ∧
    columns w' = columns demo ∧
    rows w' = satisfying OpGt f1 1 (rows demo) ∧
    (∀ r, r ∈ rows w' ↔ r ∈ rows demo ∧ satisfies OpGt f1 (cell_at 1 r) = true) ∧
    (∀ r, r ∈ rows w' → isna (cell_at 1 r) = false).
Proof.
  apply (filter_value_selects f1 "Si-29" "Si-28" ">" false (construct demo) demo
           "d(29Si/28Si)" true OpGt 1); try reflexivity.
  right. reflexivity.
Defined.

(** The claim read for every value and every column fails.  With the
    value [inf] the call raises and the table keeps the record whose
    value is missing, which does not satisfy [x < inf]; on a column
    holding a text an ordering filter raises and the table keeps the
    text record. *)
Lemma filter_value_not_every_value :
  (¬ ∃ w', working (snd (filter_value (S754_infinity false) "Si-29" "Si-28" "<" false
                           (construct demo))) = Some w' ∧
           rows w' = satisfying OpLt (S754_infinity false) 1 (rows demo)) ∧
  (¬ ∃ w', working (snd (filter_value f2 "Si-30" "Si-28" "<" false
                           (construct textual))) = Some w' ∧
           rows w' = satisfying OpLt f2 0 (rows textual)).
Proof.
  split; intros (w' & Hw & Hrows); vm_compute in Hw; injection Hw as <-;
    vm_compute in Hrows; discriminate.
Qed.

Lemma filter_value_cumulative_witness :
  ∃ s1 w1 s2 w2,
    filter_value f1 "Si-29" "Si-28" ">" false (construct demo) = (Ok tt, s1) ∧
    working s1 = Some w1 ∧
    rows w1 = satisfying OpGt f1 1 (rows demo) ∧
    filter_value f2 "Si-29" "Si-28" "=<" true s1 = (Ok tt, s2) ∧
    working s2 = Some w2 ∧
    columns w2 = columns demo ∧
    rows w2 = satisfying OpLe f2 2 (rows w1) ∧
    rows w2 = List.filter (λ r, satisfies OpGt f1 (cell_at 1 r)
                                && satisfies OpLe f2 (cell_at 2 r)) (rows demo).
Proof.
  apply (filter_value_cumulative f1 f2 "Si-29" "Si-28" ">" "Si-29" "Si-28" "=<"
           false true (construct demo) demo "d(29Si/28Si)" "d(29Si/28Si)" true true
           OpGt OpLe 1 2); try reflexivity; right; reflexivity.
Defined.

(** The claim read for any two conditions fails.  With [x < inf] as
    first condition the first call raises and filters nothing; after
    the second call ([err >= 1.0]) the table holds g1, g2 and g3, and
    g3 does not satisfy the first condition. *)
Lemma filter_value_not_cumulative_every_value :
  ¬ ∃ w2,
      working (snd (filter_value f1 "Si-29" "Si-28" ">=" true
                      (snd (filter_value (S754_infinity false) "Si-29" "Si-28" "<" false
                              (construct demo))))) = Some w2 ∧
      rows w2 = List.filter (λ r, satisfies OpLt (S754_infinity false) (cell_at 1 r)
                                  && satisfies OpGe f1 (cell_at 2 r)) (rows demo).
Proof.
  intros (w2 & Hw & Hrows). vm_compute in Hw. injection Hw as <-.
  vm_compute in Hrows. discriminate.
Qed.

(** ** Resolving a ratio column *)

Section HeaderRatio.

Implicit Types (s : state) (w : DataFrame).

Lemma header_ratio_run (iso1 iso2 a b : string) s w :
  working s = Some w →
  create_db_iso iso1 = Ok a → create_db_iso iso2 = Ok b →
  header_ratio iso1 iso2 s
    = (Ok (if bool_decide (delta_name a b ∈ columns w) then (delta_name a b, true)
           else if bool_decide (ratio_name a b ∈ columns w) then (ratio_name a b, false)
           else ("none", false)), s).
Proof.
  unfold working. intros Hw Ha Hb.
  unfold header_ratio, bind, get_db, load, lift, ret. simpl.
  rewrite Hw. simpl. rewrite Ha. simpl. rewrite Hb. simpl.
  repeat case_bool_decide; done.
Qed.

Lemma header_ratio_returns (iso1 iso2 a b : string) s w :
  working s = Some w →
  create_db_iso iso1 = Ok a → create_db_iso iso2 = Ok b →
  ∃ r, fst (header_ratio iso1 iso2 s) = Ok r.
Proof.
  intros Hw Ha Hb. rewrite (header_ratio_run iso1 iso2 a b s w Hw Ha Hb).
  by eexists.
Qed.

(** C3. With both labels converted by [create_db_iso] (to [a] and [b]),
    [header_ratio] returns, in the state it was called in, the delta
    candidate [d(a/b)] with the flag set when that is a column of the
    working table; else the raw candidate [a/b] with the flag cleared
    when that is a column; else the pair ("none", False). *)
Theorem header_ratio_resolves (iso1 iso2 a b : string) s w :
  working s = Some w →
  create_db_iso iso1 = Ok a → create_db_iso iso2 = Ok b →
  ∃ r,
    header_ratio iso1 iso2 s = (Ok r, s) ∧
    ratio_name a b = a +:+ "/" +:+ b ∧
    delta_name a b = "d(" +:+ (a +:+ "/" +:+ b) +:+ ")" ∧
    (delta_name a b ∈ columns w → r = (delta_name a b, true)) ∧
    (delta_name a b ∉ columns w → ratio_name a b ∈ columns w →
       r = (ratio_name a b, false)) ∧
    (delta_name a b ∉ columns w → ratio_name a b ∉ columns w →
       r = ("none", false)).
Proof.
  intros Hw Ha Hb. eexists. split; [by apply (header_ratio_run iso1 iso2 a b)|].
  do 2 (split; [done|]).
  repeat case_bool_decide; repeat split; intros; done.
Qed.

End HeaderRatio.

Lemma header_ratio_resolves_witness :
  ∃ r,
    header_ratio "Si-29" "Si-28" (construct demo) = (Ok r, construct demo) ∧
    ratio_name "29Si" "28Si" = "29Si/28Si" ∧
    delta_name "29Si" "28Si" = "d(29Si/28Si)" ∧
    (delta_name "29Si" "28Si" ∈ columns demo → r = (delta_name "29Si" "28Si", true)) ∧
    (delta_name "29Si" "28Si" ∉ columns demo → ratio_name "29Si" "28Si" ∈ columns demo →
       r = (ratio_name "29Si" "28Si", false)) ∧
    (delta_name "29Si" "28Si" ∉ columns demo → ratio_name "29Si" "28Si" ∉ columns demo →
       r = ("none", false)).
Proof.
  apply (header_ratio_resolves "Si-29" "Si-28" "29Si" "28Si" (construct demo) demo);
    reflexivity.
Defined.

(** ** The comparator check *)

Section Comparators.

Implicit Types (s : state) (w : DataFrame) (v : float).

Lemma comparators_dict (c : string) :
  c ∈ comparators ↔ is_Some (dict_get comp_dict c).
Proof.
  unfold comparators, comp_dict. simpl.
  rewrite !elem_of_cons, elem_of_nil.
  repeat match goal with
         | |- context [String.eqb c ?k] =>
             destruct (String.eqb_spec c k) as [->|?]; [split; by eauto 10|]
         end.
  split; [|by intros [? ?]].
  intros H. repeat (destruct H as [H|H]; [done|]). done.
Qed.

Lemma compare_series_Raise (op : cmpop) (ser : list cell) v (e : exn) :
  compare_series op ser v = Raise e → e = TypeError.
Proof.
  induction ser as [|c ser IH]; simpl; [done|].
  destruct c as [x|t]; simpl.
  - destruct (compare_series op ser v); simpl; [done|].
    intros [= <-]. by apply IH.
  - destruct op; simpl; try (by intros [= <-]).
    destruct (compare_series OpEq ser v); simpl; [done|].
    intros [= <-]. by apply IH.
Qed.

#[local] Arguments dict_get : simpl never.
#[local] Arguments err_name : simpl never.

(** With a comparator of the dictionary, no ValueError is raised. *)
Lemma filter_value_no_ValueError v (iso1 iso2 c : string) (err : bool) s w
    (r : string * bool) (op : cmpop) (msg : string) :
  working s = Some w →
  fst (header_ratio iso1 iso2 s) = Ok r →
  dict_get comp_dict c = Some op →
  fst (filter_value v iso1 iso2 c err s) ≠ Raise (ValueError msg).
Proof.
  intros Hw Hh Hc. unfold filter_value, bind.
  rewrite header_ratio_pair, Hh. simpl. rewrite Hc.
  unfold eval_comparison, bind, get_db, load, lift, new, set_db, getitem. simpl.
  unfold working in Hw. rewrite Hw. simpl.
  destruct (col_pos _ (columns w)) as [i|]; simpl; [|done].
  destruct v; simpl; try done.
  - destruct (compare_series _ _ _) as [mask|x] eqn:E; simpl.
    + by rewrite Hw.
    + by rewrite (compare_series_Raise _ _ _ _ E).
  - destruct (compare_series _ _ _) as [mask|x] eqn:E; simpl.
    + by rewrite Hw.
    + by rewrite (compare_series_Raise _ _ _ _ E).
Qed.

(** With any other comparator, ValueError is raised and nothing moves. *)
Lemma filter_value_ValueError v (iso1 iso2 c : string) (err : bool) s
    (r : string * bool) :
  fst (header_ratio iso1 iso2 s) = Ok r →
  dict_get comp_dict c = None →
  filter_value v iso1 iso2 c err s
    = (Raise (ValueError ("Comparator " +:+ c +:+ " is not valid.")), s).
Proof.
  intros Hh Hc. unfold filter_value, bind.
  rewrite header_ratio_pair, Hh. simpl. by rewrite Hc.
Qed.

(** C7. On a state whose working table exists and with labels that
    [create_db_iso] converts: [filter_value] raises ValueError exactly
    for the comparators outside <, >, <=, =<, >=, =>, =; for those it
    leaves the whole state (so the working table) as it was; and in
    the dictionary =< stands for <=, => for >=, and = for ==. *)
Theorem filter_value_comparators v (iso1 iso2 a b c : string) (err : bool) s w :
  working s = Some w →
  create_db_iso iso1 = Ok a → create_db_iso iso2 = Ok b →
  (c ∈ comparators ↔
     ∀ msg, fst (filter_value v iso1 iso2 c err s) ≠ Raise (ValueError msg)) ∧
  (c ∉ comparators →
     filter_value v iso1 iso2 c err s
       = (Raise (ValueError ("Comparator " +:+ c +:+ " is not valid.")), s)) ∧
  dict_get comp_dict "<" = Some OpLt ∧
  dict_get comp_dict ">" = Some OpGt ∧
  dict_get comp_dict "<=" = Some OpLe ∧
  dict_get comp_dict "=<" = Some OpLe ∧
  dict_get comp_dict ">=" = Some OpGe ∧
  dict_get comp_dict "=>" = Some OpGe ∧
  dict_get comp_dict "=" = Some OpEq.
Proof.
  intros Hw Ha Hb.
  destruct (header_ratio_returns iso1 iso2 a b s w Hw Ha Hb) as [r Hr].
  assert (Hbad : c ∉ comparators →
            filter_value v iso1 iso2 c err s
              = (Raise (ValueError ("Comparator " +:+ c +:+ " is not valid.")), s)).
  { intros Hc. eapply filter_value_ValueError; [done|].
    apply eq_None_not_Some. by rewrite <- comparators_dict. }
  split; [|split; [done|by repeat split]].
  split.
  - intros [op Hop]%comparators_dict msg.
    by eapply filter_value_no_ValueError.
  - intros Hno. destruct (decide (c ∈ comparators)) as [|Hc]; [done|].
    exfalso. apply (Hno ("Comparator " +:+ c +:+ " is not valid.")).
    by rewrite (Hbad Hc).
Qed.

End Comparators.

Lemma filter_value_comparators_witness :
  ("!=" ∈ comparators ↔
     ∀ msg, fst (filter_value f1 "Si-29" "Si-28" "!=" false (construct demo))
            ≠ Raise (ValueError msg)) ∧
  ("!=" ∉ comparators →
     filter_value f1 "Si-29" "Si-28" "!=" false (construct demo)
       = (Raise (ValueError ("Comparator " +:+ "!=" +:+ " is not valid.")), construct demo)) ∧
  dict_get comp_dict "<" = Some OpLt ∧
  dict_get comp_dict ">" = Some OpGt ∧
  dict_get comp_dict "<=" = Some OpLe ∧
  dict_get comp_dict "=<" = Some OpLe ∧
  dict_get comp_dict ">=" = Some OpGe ∧
  dict_get comp_dict "=>" = Some OpGe ∧
  dict_get comp_dict "=" = Some OpEq.
Proof.
  apply (filter_value_comparators f1 "Si-29" "Si-28" "29Si" "28Si" "!=" false
           (construct demo) demo); reflexivity.
Defined.

(** ** Filters only remove records *)

Section Narrowing.

Implicit Types (s : state) (w : DataFrame).

Lemma narrowed_same s w : working s = Some w → narrowed w s.
Proof. intros Hw. exists w. by repeat split. Qed.

Lemma narrowed_rebind_db s w (mask : list bool) :
  narrowed w (rebind_db s (getitem_mask w mask)).
Proof.
  exists (getitem_mask w mask).
  pose proof (select_sublist (rows w) mask) as Hsub.
  split; [apply working_rebind_db|]. split; [done|]. split; [done|].
  split; simpl.
  - intros r Hr. by eapply elem_of_sublist.
  - intros Hnd. by eapply sublist_NoDup.
Qed.

(** C10. After [filter_value] or [filter_type] (returning or raising),
    the working table has the same columns and a sublist of the
    records it had before: every remaining record was there, the order
    is kept, and records that were pairwise distinct stay so. *)
Theorem filters_only_remove s w :
  working s = Some w →
  (∀ v iso1 iso2 c err, narrowed w (snd (filter_value v iso1 iso2 c err s))) ∧
  (∀ g, narrowed w (snd (filter_type g s))).
Proof.
  intros Hw. split.
  - intros v iso1 iso2 c err.
    destruct (filter_value_outcome v iso1 iso2 c err s w Hw) as [[e ->]|[mask ->]];
      simpl; [by apply narrowed_same | apply narrowed_rebind_db].
  - intros g.
    destruct (filter_type_outcome g s w Hw) as [[e ->]|[mask ->]];
      simpl; [by apply narrowed_same | apply narrowed_rebind_db].
Qed.

End Narrowing.

Lemma filters_only_remove_witness :
  (∀ v iso1 iso2 c err,
     narrowed demo (snd (filter_value v iso1 iso2 c err (construct demo)))) ∧
  (∀ g, narrowed demo (snd (filter_type g (construct demo)))).
Proof. apply (filters_only_remove (construct demo) demo). reflexivity. Defined.

(** ** Extracting two ratios *)

Section ReturnRatios.

Local Open Scope nat_scope.

Implicit Types (s : state) (w : DataFrame).

#[local] Arguments err_name : simpl never.
#[local] Arguments getitem_list : simpl never.
#[local] Arguments getitem_to_numpy : simpl never.

(** The run of [return_ratios] once the selection went through: the
    selection and its copy are two new objects, the copy loses its
    incomplete records, and the attributes of the object stay. *)
Lemma return_ratios_run (isos1 isos2 : string * string) s w
    (hx hy : string) (dx dy : bool) (sel : DataFrame) :
  working s = Some w →
  fst (header_ratio (fst isos1) (snd isos1) s) = Ok (hx, dx) →
  fst (header_ratio (fst isos2) (snd isos2) s) = Ok (hy, dy) →
  getitem_list w [hx; hy; err_name hx; err_name hy] = Ok sel →
  return_ratios isos1 isos2 s
    = (arrays (dropna sel) hx hy, State (heap s ++ [sel; dropna sel]) (self s)).
Proof.
  intros Hw Hx Hy Hsel. unfold return_ratios, bind.
  rewrite header_ratio_pair, Hx, header_ratio_pair, Hy. simpl.
  unfold get_db, load, lift, new, copy, dropna_inplace, bind, load, new, store.
  simpl. unfold working in Hw. rewrite Hw, Hsel. simpl.
  rewrite lookup_app_r, Nat.sub_diag by lia. simpl.
  rewrite !length_app. simpl.
  rewrite lookup_app_r by (rewrite length_app; simpl; lia).
  rewrite length_app. simpl.
  replace (length (heap s) + 1 - (length (heap s) + 1)) with 0 by lia. simpl.
  rewrite insert_app_r_alt by (rewrite length_app; simpl; lia).
  rewrite length_app. simpl.
  replace (length (heap s) + 1 - (length (heap s) + 1)) with 0 by lia. simpl.
  rewrite lookup_app_r by (rewrite length_app; simpl; lia).
  rewrite length_app. simpl.
  replace (length (heap s) + 1 - (length (heap s) + 1)) with 0 by lia. simpl.
  rewrite <- app_assoc. simpl.
  unfold arrays, ret.
  destruct (getitem_to_numpy (dropna sel) hx); simpl; [|done].
  destruct (getitem_to_numpy (dropna sel) hy); simpl; [|done].
  destruct (getitem_to_numpy (dropna sel) (err_name hx)); simpl; [|done].
  destruct (getitem_to_numpy (dropna sel) (err_name hy)); simpl; done.
Qed.

(** Whatever happens, [return_ratios] only adds objects to the store. *)
Lemma return_ratios_outcome (isos1 isos2 : string * string) s :
  ∃ extra, snd (return_ratios isos1 isos2 s) = State (heap s ++ extra) (self s).
Proof.
  assert (Hsame : s = State (heap s ++ []) (self s)).
  { rewrite app_nil_r. by destruct s. }
  destruct (working s) as [w|] eqn:Hw.
  - destruct (fst (header_ratio (fst isos1) (snd isos1) s)) as [[hx dx]|e] eqn:Hx.
    + destruct (fst (header_ratio (fst isos2) (snd isos2) s)) as [[hy dy]|e] eqn:Hy.
      * destruct (getitem_list w [hx; hy; err_name hx; err_name hy]) as [sel|e] eqn:Hsel.
        -- eexists. by rewrite (return_ratios_run isos1 isos2 s w hx hy dx dy sel).
        -- exists []. rewrite <- Hsame. unfold return_ratios, bind.
           rewrite header_ratio_pair, Hx, header_ratio_pair, Hy. simpl.
           unfold get_db, load, lift. simpl. unfold working in Hw.
           by rewrite Hw, Hsel.
      * exists []. rewrite <- Hsame. unfold return_ratios, bind.
        by rewrite header_ratio_pair, Hx, header_ratio_pair, Hy.
    + exists []. rewrite <- Hsame. unfold return_ratios, bind.
      by rewrite header_ratio_pair, Hx.
  - exists []. rewrite <- Hsame. unfold return_ratios, bind.
    by rewrite header_ratio_dangling.
Qed.

(** C9. On a state whose two attributes point into the store,
    [return_ratios] (returning or raising) leaves the attributes, the
    working table, the backup table and every object that existed
    before the call as they were. *)
Theorem return_ratios_frame (isos1 isos2 : string * string) s :
  valid s →
  let s' := snd (return_ratios isos1 isos2 s) in
  self s' = self s ∧
  working s' = working s ∧
  backup s' = backup s ∧
  (∀ p, p < length (heap s) → heap s' !! p = heap s !! p).
Proof.
  intros [[w Hw] [b Hb]]. simpl.
  destruct (return_ratios_outcome isos1 isos2 s) as [extra ->].
  assert (Hold : ∀ p, p < length (heap s) → (heap s ++ extra)%list !! p = heap s !! p).
  { intros p Hp. by apply lookup_app_l. }
  split; [done|]. unfold working, backup. simpl.
  split; [|split; [|done]].
  - apply Hold. by eapply working_lt.
  - apply Hold. by eapply backup_lt.
Qed.

End ReturnRatios.

Section ReturnRatiosValues.

Local Open Scope nat_scope.

Implicit Types (s : state) (w fin : DataFrame).

Lemma getitem_list_four w (hx hy hex hey : string) (ix iy iex iey : nat) :
  col_pos hx (columns w) = Some ix → col_pos hy (columns w) = Some iy →
  col_pos hex (columns w) = Some iex → col_pos hey (columns w) = Some iey →
  getitem_list w [hx; hy; hex; hey]
    = Ok (Frame [hx; hy; hex; hey] (map (four ix iy iex iey) (rows w))).
Proof.
  intros Hx Hy Hex Hey. unfold getitem_list. simpl.
  by rewrite Hx, Hy, Hex, Hey.
Qed.

Lemma complete_four (ix iy iex iey : nat) (r : row) :
  complete (four ix iy iex iey r) = complete4 ix iy iex iey r.
Proof.
  unfold complete, complete4. simpl.
  by destruct (isna (cell_at ix r)), (isna (cell_at iy r)),
              (isna (cell_at iex r)), (isna (cell_at iey r)).
Qed.

Lemma dropna_four (hs : list string) (ix iy iex iey : nat) (rs : list row) :
  dropna (Frame hs (map (four ix iy iex iey) rs))
    = Frame hs (map (four ix iy iex iey) (List.filter (complete4 ix iy iex iey) rs)).
Proof.
  unfold dropna. simpl. f_equal.
  induction rs as [|r rs IH]; simpl; [done|].
  rewrite complete_four, IH. by destruct (complete4 ix iy iex iey r).
Qed.

Lemma all_pos_bounds (h : string) (cols : list string) (k i : nat) :
  i ∈ all_pos h cols k → k ≤ i < k + length cols.
Proof.
  revert k. induction cols as [|c cols IH]; intros k; simpl.
  - by intros ?%elem_of_nil.
  - destruct (String.eqb h c).
    + intros [->|Hi%IH]%elem_of_cons; lia.
    + intros Hi%IH. lia.
Qed.

Lemma all_pos_elem_of (h : string) (cols : list string) (k : nat) :
  h ∈ cols → all_pos h cols k ≠ [].
Proof.
  revert k. induction cols as [|c cols IH]; intros k; simpl.
  - by intros ?%elem_of_nil.
  - destruct (String.eqb_spec h c) as [->|Hne]; [done|].
    intros [?|Hin]%elem_of_cons; [done|]. by apply IH.
Qed.

Lemma elem_of_concat (c : cell) (xss : list (list cell)) :
  c ∈ concat xss → ∃ xs, c ∈ xs ∧ xs ∈ xss.
Proof.
  rewrite list_elem_of_In, in_concat. intros (xs & Hxs & Hc).
  exists xs. by rewrite !list_elem_of_In.
Qed.

Lemma getitem_to_numpy_returns fin (h : string) :
  h ∈ columns fin →
  ∃ a, getitem_to_numpy fin h = Ok a ∧ len a = length (rows fin) ∧
       ∀ c, c ∈ values a →
            ∃ r i, r ∈ rows fin ∧ i < length (columns fin) ∧ c = cell_at i r.
Proof.
  intros Hin. unfold getitem_to_numpy.
  pose proof (all_pos_elem_of h (columns fin) 0 Hin) as Hne.
  pose proof (all_pos_bounds h (columns fin) 0) as Hb.
  destruct (all_pos h (columns fin) 0) as [|i [|j ps]]; [done| |].
  - eexists. split; [done|]. simpl. split; [by rewrite length_map|].
    intros c (r & -> & Hr)%list_elem_of_fmap. exists r, i.
    split; [done|]. split; [|done]. apply Hb. apply list_elem_of_here.
  - eexists. split; [done|]. simpl. split; [by rewrite length_map|].
    intros c (l & Hc & (r & -> & Hr)%list_elem_of_fmap)%elem_of_concat.
    change (c ∈ map (λ k, cell_at k r) (i :: j :: ps)) in Hc.
    apply list_elem_of_fmap in Hc as (k & -> & Hk).
    exists r, k. split; [done|]. split; [|done]. by apply Hb.
Qed.

Lemma cell_at_complete (r : row) (i : nat) :
  complete r = true → i < length (cells r) → isna (cell_at i r) = false.
Proof.
  unfold complete, cell_at. intros Hall Hi.
  destruct (lookup_lt_is_Some_2 (cells r) i Hi) as [c Hc]. rewrite Hc. simpl.
  rewrite forallb_forall in Hall.
  specialize (Hall c). rewrite <- list_elem_of_In in Hall.
  apply negb_true_iff, Hall. by eapply list_elem_of_lookup_2.
Qed.

Lemma getitem_to_numpy_one (hs : list string) (rs : list row) (h : string) (i : nat) :
  all_pos h hs 0 = [i] →
  getitem_to_numpy (Frame hs rs) h = Ok (Arr1 (map (cell_at i) rs)).
Proof. intros H. unfold getitem_to_numpy. simpl. by rewrite H. Qed.

End ReturnRatiosValues.

Section ReturnRatiosClaim.

Local Open Scope nat_scope.

Implicit Types (s : state) (w fin : DataFrame).

#[local] Arguments err_name : simpl never.

Lemma four_frame_values (hs : list string) (ix iy iex iey : nat) (rs : list row)
    (h : string) :
  length hs = 4 → h ∈ hs →
  ∃ a, getitem_to_numpy
         (Frame hs (map (four ix iy iex iey) (List.filter (complete4 ix iy iex iey) rs))) h
       = Ok a ∧
       len a = length (List.filter (complete4 ix iy iex iey) rs) ∧
       ∀ c, c ∈ values a → isna c = false.
Proof.
  intros Hlen Hin.
  destruct (getitem_to_numpy_returns
              (Frame hs (map (four ix iy iex iey)
                           (List.filter (complete4 ix iy iex iey) rs))) h Hin)
    as (a & Ha & Hl & Hv).
  exists a. split; [done|]. simpl in Hl, Hv. rewrite length_map in Hl.
  split; [done|].
  intros c (r & i & Hr & Hi & ->)%Hv.
  apply list_elem_of_fmap in Hr as (r0 & -> & Hr0).
  apply cell_at_complete; [|simpl; lia].
  rewrite complete_four.
  apply list_elem_of_In, filter_In in Hr0. by destruct Hr0.
Qed.

Lemma all_pos_four (a b c d : string) :
  NoDup [a; b; c; d] →
  all_pos a [a; b; c; d] 0 = [0] ∧ all_pos b [a; b; c; d] 0 = [1] ∧
  all_pos c [a; b; c; d] 0 = [2] ∧ all_pos d [a; b; c; d] 0 = [3].
Proof.
  intros Hnd.
  apply NoDup_cons in Hnd as [Ha Hnd]. apply NoDup_cons in Hnd as [Hb Hnd].
  apply NoDup_cons in Hnd as [Hc _].
  apply not_elem_of_cons in Ha as [Hab Ha].
  apply not_elem_of_cons in Ha as [Hac Ha].
  apply not_elem_of_cons in Ha as [Had _].
  apply not_elem_of_cons in Hb as [Hbc Hb].
  apply not_elem_of_cons in Hb as [Hbd _].
  apply not_elem_of_cons in Hc as [Hcd _].
  simpl.
  repeat match goal with
         | |- context [String.eqb ?x ?y] =>
             destruct (String.eqb_spec x y); try congruence
         end.
  done.
Qed.

(** C6. When both pairs resolve (to [hx] and [hy]) and the four columns
    [hx], [hy], [err[hx]], [err[hy]] exist in the working table,
    [return_ratios] returns four arrays: each has as many lines as the
    working table has records with none of the four values missing, no
    value in them is missing, and, the four names being distinct, they
    are the x values, y values, x errors and y errors of exactly those
    records, in their order. *)
Theorem return_ratios_complete_cases (isos1 isos2 : string * string) s w
    (hx hy : string) (dx dy : bool) (ix iy iex iey : nat) :
  working s = Some w →
  fst (header_ratio (fst isos1) (snd isos1) s) = Ok (hx, dx) →
  fst (header_ratio (fst isos2) (snd isos2) s) = Ok (hy, dy) →
  col_pos hx (columns w) = Some ix →
  col_pos hy (columns w) = Some iy →
  col_pos (err_name hx) (columns w) = Some iex →
  col_pos (err_name hy) (columns w) = Some iey →
  ∃ xdata ydata xerr yerr,
    fst (return_ratios isos1 isos2 s) = Ok (xdata, ydata, xerr, yerr) ∧
    len xdata = length (List.filter (complete4 ix iy iex iey) (rows w)) ∧
    len ydata = len xdata ∧ len xerr = len xdata ∧ len yerr = len xdata ∧
    (∀ c, c ∈ (values xdata ++ values ydata ++ values xerr ++ values yerr)%list →
          isna c = false) ∧
    (NoDup [hx; hy; err_name hx; err_name hy] →
       xdata = Arr1 (map (cell_at ix) (List.filter (complete4 ix iy iex iey) (rows w))) ∧
       ydata = Arr1 (map (cell_at iy) (List.filter (complete4 ix iy iex iey) (rows w))) ∧
       xerr = Arr1 (map (cell_at iex) (List.filter (complete4 ix iy iex iey) (rows w))) ∧
       yerr = Arr1 (map (cell_at iey) (List.filter (complete4 ix iy iex iey) (rows w)))).
Proof.
  intros Hw Hx Hy Hix Hiy Hiex Hiey.
  pose proof (getitem_list_four w hx hy (err_name hx) (err_name hy)
                ix iy iex iey Hix Hiy Hiex Hiey) as Hsel.
  rewrite (return_ratios_run isos1 isos2 s w hx hy dx dy _ Hw Hx Hy Hsel).
  rewrite dropna_four. simpl.
  set (hs := [hx; hy; err_name hx; err_name hy]).
  set (kept := List.filter (complete4 ix iy iex iey) (rows w)).
  assert (Hin : ∀ h, h ∈ hs →
            ∃ a, getitem_to_numpy (Frame hs (map (four ix iy iex iey) kept)) h = Ok a ∧
                 len a = length kept ∧ ∀ c, c ∈ values a → isna c = false).
  { intros h Hh. by apply four_frame_values. }
  destruct (Hin hx) as (xdata & Exd & Lxd & Vxd); [subst hs; rewrite !elem_of_cons; by eauto 10|].
  destruct (Hin hy) as (ydata & Eyd & Lyd & Vyd); [subst hs; rewrite !elem_of_cons; by eauto 10|].
  destruct (Hin (err_name hx)) as (xerr & Exe & Lxe & Vxe); [subst hs; rewrite !elem_of_cons; by eauto 10|].
  destruct (Hin (err_name hy)) as (yerr & Eye & Lye & Vye); [subst hs; rewrite !elem_of_cons; by eauto 10|].
  exists xdata, ydata, xerr, yerr. unfold arrays.
  rewrite Exd, Eyd, Exe, Eye. simpl.
  split; [done|]. split; [done|].
  split; [congruence|]. split; [congruence|]. split; [congruence|].
  split.
  - intros c. rewrite !elem_of_app. intros [?|[?|[?|?]]]; eauto.
  - intros Hnd.
    pose proof (all_pos_four _ _ _ _ Hnd) as Hpos. fold hs in Hpos.
    destruct Hpos as (Px & Py & Pex & Pey).
    rewrite (getitem_to_numpy_one hs _ hx 0 Px) in Exd.
    rewrite (getitem_to_numpy_one hs _ hy 1 Py) in Eyd.
    rewrite (getitem_to_numpy_one hs _ (err_name hx) 2 Pex) in Exe.
    rewrite (getitem_to_numpy_one hs _ (err_name hy) 3 Pey) in Eye.
    rewrite map_map in Exd, Eyd, Exe, Eye.
    injection Exd as <-. injection Eyd as <-.
    injection Exe as <-. injection Eye as <-. done.
Qed.

End ReturnRatiosClaim.

Lemma return_ratios_complete_cases_witness :
  ∃ xdata ydata xerr yerr,
    fst (return_ratios ("Si-29", "Si-28") ("Si-30", "Si-28") (construct demo))
      = Ok (xdata, ydata, xerr, yerr) ∧
    len xdata = length (List.filter (complete4 1 3 2 4) (rows demo)) ∧
    len ydata = len xdata ∧ len xerr = len xdata ∧ len yerr = len xdata ∧
    (∀ c, c ∈ (values xdata ++ values ydata ++ values xerr ++ values yerr)%list →
          isna c = false) ∧
    (NoDup ["d(29Si/28Si)"; "30Si/28Si"; err_name "d(29Si/28Si)"; err_name "30Si/28Si"] →
       xdata = Arr1 (map (cell_at 1) (List.filter (complete4 1 3 2 4) (rows demo))) ∧
       ydata = Arr1 (map (cell_at 3) (List.filter (complete4 1 3 2 4) (rows demo))) ∧
       xerr = Arr1 (map (cell_at 2) (List.filter (complete4 1 3 2 4) (rows demo))) ∧
       yerr = Arr1 (map (cell_at 4) (List.filter (complete4 1 3 2 4) (rows demo)))).
Proof.
  apply (return_ratios_complete_cases ("Si-29", "Si-28") ("Si-30", "Si-28")
           (construct demo) demo "d(29Si/28Si)" "30Si/28Si" true false 1 3 2 4);
    reflexivity.
Defined.

Lemma return_ratios_frame_witness :
  let s' := snd (return_ratios ("Si-29", "Si-28") ("Si-30", "Si-28") (construct demo)) in
  self s' = self (construct demo) ∧
  working s' = working (construct demo) ∧
  backup s' = backup (construct demo) ∧
  (∀ p, (p < length (heap (construct demo)))%nat →
        heap s' !! p = heap (construct demo) !! p).
Proof.
  apply (return_ratios_frame ("Si-29", "Si-28") ("Si-30", "Si-28") (construct demo)).
  split; eexists; reflexivity.
Defined.

(** ** The working table and the backup table *)

Section Invariant.

Local Open Scope nat_scope.

Implicit Types (s : state) (w b csv : DataFrame).

Lemma construct_eq csv : construct csv = State [csv; csv] (Self 0 1).
Proof. reflexivity. Qed.

Lemma anchored_table_inv b s : anchored b s → table_inv s.
Proof. intros (Hb & w & Hw & Hc & Hr). by exists w, b. Qed.

Lemma table_inv_anchored s : table_inv s → ∃ b, anchored b s.
Proof. intros (w & b & Hw & Hb & Hc & Hr). exists b. split; [done|]. by exists w. Qed.

Lemma anchored_construct csv : anchored csv (construct csv).
Proof. split; [done|]. by exists csv. Qed.

Lemma anchored_rebind_db b s df :
  anchored b s → columns df = columns b → rows df `sublist_of` rows b →
  anchored b (rebind_db s df).
Proof.
  intros (Hb & _) Hc Hr. split.
  - rewrite backup_rebind_db; [done|by eexists].
  - exists df. by rewrite working_rebind_db.
Qed.

Lemma anchored_grow b s (extra : list DataFrame) :
  anchored b s → anchored b (State (heap s ++ extra) (self s)).
Proof.
  intros (Hb & w & Hw & Hc & Hr). unfold anchored, working, backup. simpl.
  rewrite !lookup_app_l by (by eapply backup_lt || by eapply working_lt).
  split; [done|]. by exists w.
Qed.

Lemma anchored_select b s w (mask : list bool) :
  anchored b s → working s = Some w →
  anchored b (rebind_db s (getitem_mask w mask)).
Proof.
  intros Hanch Hw. pose proof Hanch as (Hb & w' & Hw' & Hc & Hr).
  assert (w' = w) as -> by congruence.
  apply anchored_rebind_db; [done|done|]. simpl.
  etrans; [apply select_sublist|done].
Qed.

(** Every call keeps the invariant, with the same backup table. *)
Lemma anchored_exec b s (c : call) : anchored b s → anchored b (exec c s).
Proof.
  intros Hanch. pose proof Hanch as (Hb & w & Hw & Hc & Hr).
  destruct c as [v iso1 iso2 cmp err|g|iso1 iso2| |isos1 isos2]; simpl.
  - destruct (filter_value_outcome v iso1 iso2 cmp err s w Hw) as [[e ->]|[mask ->]];
      simpl; [done|by apply anchored_select].
  - destruct (filter_type_outcome g s w Hw) as [[e ->]|[mask ->]];
      simpl; [done|by apply anchored_select].
  - by rewrite header_ratio_state.
  - rewrite (reset_run s b Hb). simpl. by apply anchored_rebind_db.
  - destruct (return_ratios_outcome isos1 isos2 s) as [extra ->].
    by apply anchored_grow.
Qed.

Lemma anchored_exec_all b (cs : list call) s :
  anchored b s → anchored b (exec_all cs s).
Proof.
  revert s. induction cs as [|c cs IH]; intros s Hs; simpl; [done|].
  by apply IH, anchored_exec.
Qed.

(** C2. The invariant (the working table has the columns of the backup
    table and a sublist of its records) holds right after
    construction, every call keeps it whether it returns or raises,
    and so it holds after any sequence of calls. *)
Theorem table_inv_always csv :
  table_inv (construct csv) ∧
  (∀ s c, table_inv s → table_inv (exec c s)) ∧
  (∀ cs, table_inv (exec_all cs (construct csv))).
Proof.
  split; [|split].
  - eapply anchored_table_inv, anchored_construct.
  - intros s c [b Hb]%table_inv_anchored.
    by eapply anchored_table_inv, anchored_exec.
  - intros cs. eapply anchored_table_inv, anchored_exec_all, anchored_construct.
Qed.

(** C4. After construction from [csv] and any sequence of calls,
    [reset] returns; the working table is then a new object, distinct
    from the backup object, whose content is [csv], the content of the
    working table right after construction; the backup table is still
    [csv]; and a second [reset] returns with the same two tables. *)
Theorem reset_restores csv (cs : list call) :
  let s := exec_all cs (construct csv) in
  working (construct csv) = Some csv ∧
  ∃ s', reset s = (Ok tt, s') ∧
        working s' = Some csv ∧ backup s' = Some csv ∧
        db (self s') = length (heap s) ∧ db (self s') ≠ _db (self s') ∧
        ∃ s'', reset s' = (Ok tt, s'') ∧
               working s'' = working s' ∧ backup s'' = backup s'.
Proof.
  simpl. split; [done|].
  pose proof (anchored_exec_all csv cs _ (anchored_construct csv)) as Hs.
  set (s := exec_all cs (construct csv)) in *.
  pose proof Hs as (Hb & _).
  assert (Hs' : anchored csv (rebind_db s csv)).
  { by apply anchored_rebind_db. }
  pose proof Hs' as (Hb' & _).
  exists (rebind_db s csv). split; [by apply reset_run|].
  split; [apply working_rebind_db|]. split; [done|]. split; [done|].
  split.
  { simpl. apply backup_lt in Hb. lia. }
  exists (rebind_db (rebind_db s csv) csv). split; [by apply reset_run|].
  split.
  - by rewrite !working_rebind_db.
  - apply backup_rebind_db. by eexists.
Qed.

End Invariant.

Lemma table_inv_always_witness :
  table_inv (exec (FilterType (OneType "M")) (construct demo)).
Proof.
  destruct (table_inv_always demo) as (Hinit & Hstep & _).
  apply Hstep. exact Hinit.
Defined.

(** ** The isotope name codec *)

Section CodecClaim.

Local Open Scope nat_scope.

(** C8, as the code has it.  [create_db_iso] checks nothing: with no
    separator in the label it raises IndexError; with one separator,
    [e-m], it returns [m] followed by [e], also when [e] or [m] is
    empty; with more separators it returns the text between the first
    two separators followed by the text before the first, and raises
    nothing. *)
Theorem create_db_iso_behaviour (e m rest : string) :
  count_sep "-" e = 0 → count_sep "-" m = 0 →
  create_db_iso e = Raise IndexError ∧
  create_db_iso (e +:+ "-" +:+ m) = Ok (m +:+ e) ∧
  create_db_iso (e +:+ "-" +:+ m +:+ "-" +:+ rest) = Ok (m +:+ e).
Proof.
  intros He Hm. split; [by apply create_db_iso_no_sep|].
  split; [by apply create_db_iso_one_sep | by apply create_db_iso_more_sep].
Qed.

End CodecClaim.

Lemma create_db_iso_behaviour_witness :
  create_db_iso "Si" = Raise IndexError ∧
  create_db_iso "Si-28" = Ok "28Si" ∧
  create_db_iso "Si-28-x" = Ok "28Si".
Proof. apply (create_db_iso_behaviour "Si" "28" "x"); reflexivity. Defined.

(** No check of the shape: a label with two separators and a label with
    an empty part are both outside the documented shape, and
    [create_db_iso] returns on both. *)
Lemma create_db_iso_accepts_malformed :
  well_formed_label "Si-28-x" = false ∧ create_db_iso "Si-28-x" = Ok "28Si" ∧
  well_formed_label "-28" = false ∧ create_db_iso "-28" = Ok "28".
Proof. repeat split. Qed.

(** ** Values that are not numbers *)

Section NotANumber.

Implicit Types (s : state) (w : DataFrame) (v : float).

#[local] Arguments dict_get : simpl never.
#[local] Arguments err_name : simpl never.

(** With an infinity or NaN as [value], the evaluated expression names
    [inf] or [nan]: NameError, and the state stays. *)
Lemma filter_value_not_number v (iso1 iso2 c : string) (err : bool) s w
    (hdr : string) (delta : bool) (op : cmpop) (i : nat) :
  working s = Some w →
  fst (header_ratio iso1 iso2 s) = Ok (hdr, delta) →
  col_pos (if err then err_name hdr else hdr) (columns w) = Some i →
  dict_get comp_dict c = Some op →
  is_number v = false →
  ∃ x, filter_value v iso1 iso2 c err s = (Raise (NameError x), s).
Proof.
  intros Hw Hh Hi Hc Hv. unfold filter_value, bind.
  rewrite header_ratio_pair, Hh. simpl. rewrite Hc.
  unfold eval_comparison, bind, get_db, load, lift, getitem. simpl.
  unfold working in Hw. rewrite Hw. simpl. rewrite Hi. simpl.
  destruct v; try done; simpl; by eexists.
Qed.

End NotANumber.

Example filter_value_infinity :
  filter_value (S754_infinity false) "Si-29" "Si-28" "<" false (construct demo)
    = (Raise (NameError "inf"), construct demo).
Proof. reflexivity. Qed.

Example filter_value_unresolved :
  filter_value f1 "Si-31" "Si-28" "<" false (construct demo)
    = (Raise (KeyError "none"), construct demo).
Proof. reflexivity. Qed.

Example filter_type_then_value :
  option_map (λ w, map name (rows w))
    (working (exec_all [FilterType (OneType "M"); FilterValue f1 "Si-29" "Si-28" ">" false]
                (construct demo)))
    = Some ["g4"].
Proof. reflexivity. Qed.

(** * Further properties of the methods *)

(** ** Filtering by grain type *)

Section FilterType.

Implicit Types (s : state) (w : DataFrame).

Lemma isin_type_in (types : list string) (i : nat) (rs : list row) :
  isin (map (cell_at i) rs) types = map (type_in types i) rs.
Proof. unfold isin, type_in. by rewrite map_map. Qed.

Lemma filter_type_run (g : grain_types) s w (i : nat) :
  working s = Some w →
  col_pos "PGD Type" (columns w) = Some i →
  filter_type g s
    = (Ok tt, rebind_db s (Frame (columns w)
                             (List.filter (type_in (type_list g) i) (rows w)))).
Proof.
  intros Hw Hi. unfold filter_type, bind, get_db, load, lift, new, set_db, getitem.
  unfold working in Hw. rewrite Hw. cbn beta iota. rewrite Hi. cbn beta iota.
  unfold rebind_db, getitem_mask. cbn [heap self db _db fst snd columns rows].
  rewrite isin_type_in, select_map. by destruct g.
Qed.

Lemma type_in_spec (types : list string) (i : nat) (r : row) :
  type_in types i r = true ↔ ∃ t, cell_at i r = Str t ∧ t ∈ types.
Proof.
  unfold type_in. destruct (cell_at i r) as [x|t].
  - split; [done|]. by intros (t & ? & _).
  - rewrite bool_decide_eq_true. split; [by eauto|].
    by intros (t' & [= <-] & Ht).
Qed.

(** X1. [filter_type] keeps exactly the records whose grain type is one of
    the given types.  On a table with a [PGD Type] column the call
    always returns; the working table then has the same columns and, in
    their order, exactly the former records whose [PGD Type] value is a
    string of the list (a single string standing for the list holding
    it).  A record whose type is missing is never kept. *)
Theorem filter_type_selects (g : grain_types) s w (i : nat) :
  working s = Some w →
  col_pos "PGD Type" (columns w) = Some i →
  ∃ s' w',
    filter_type g s = (Ok tt, s') ∧
    working s' = Some w' ∧
    columns w' = columns w ∧
    rows w' = List.filter (type_in (type_list g) i) (rows w) ∧
    (∀ r, r ∈ rows w' ↔
          r ∈ rows w ∧ ∃ t, cell_at i r = Str t ∧ t ∈ type_list g) ∧
    (∀ r, r ∈ rows w' → isna (cell_at i r) = false).
Proof.
  intros Hw Hi. eexists. eexists.
  split; [by apply filter_type_run|].
  split; [apply working_rebind_db|]. do 2 (split; [done|]). simpl.
  assert (Hin : ∀ r, r ∈ List.filter (type_in (type_list g) i) (rows w) ↔
                     r ∈ rows w ∧ ∃ t, cell_at i r = Str t ∧ t ∈ type_list g).
  { intros r. rewrite !list_elem_of_In, filter_In, <- list_elem_of_In.
    by rewrite type_in_spec. }
  split; [done|].
  intros r (_ & t & -> & _)%Hin. done.
Qed.

(** X2. An empty list of types empties the table and raises nothing; the
    columns stay. *)
Theorem filter_type_empty_list s w (i : nat) :
  working s = Some w →
  col_pos "PGD Type" (columns w) = Some i →
  ∃ s', filter_type (TypeList []) s = (Ok tt, s') ∧
        working s' = Some (Frame (columns w) []).
Proof.
  intros Hw Hi. eexists. split; [by apply filter_type_run|].
  rewrite working_rebind_db. do 2 f_equal. simpl.
  induction (rows w) as [|r rs IH]; simpl; [done|].
  unfold type_in at 1. destruct (cell_at i r); [done|].
  by rewrite bool_decide_eq_false_2 by apply not_elem_of_nil.
Qed.

(** X3. Without a [PGD Type] column, [filter_type] raises KeyError and the
    state stays as it was. *)
Theorem filter_type_no_column (g : grain_types) s w :
  working s = Some w →
  "PGD Type" ∉ columns w →
  filter_type g s = (Raise (KeyError "PGD Type"), s).
Proof.
  intros Hw Hno%col_pos_None.
  unfold filter_type, bind, get_db, load, lift, getitem.
  unfold working in Hw. rewrite Hw. cbn beta iota. by rewrite Hno.
Qed.

(** X4. Two calls of [filter_type] keep the records whose type is in both
    lists: the order of the two calls does not matter, and a call
    repeated changes nothing more. *)
Theorem filter_type_twice (g1 g2 : grain_types) s w (i : nat) :
  working s = Some w →
  col_pos "PGD Type" (columns w) = Some i →
  ∃ s1 s2 t1 t2 w2,
    filter_type g1 s = (Ok tt, s1) ∧ filter_type g2 s1 = (Ok tt, s2) ∧
    filter_type g2 s = (Ok tt, t1) ∧ filter_type g1 t1 = (Ok tt, t2) ∧
    working s2 = Some w2 ∧ working t2 = Some w2 ∧
    columns w2 = columns w ∧
    rows w2 = List.filter (λ r, type_in (type_list g1) i r
                                && type_in (type_list g2) i r) (rows w) ∧
    (g1 = g2 → working s2 = working s1).
Proof.
  intros Hw Hi.
  set (w1 := Frame (columns w) (List.filter (type_in (type_list g1) i) (rows w))).
  set (u1 := Frame (columns w) (List.filter (type_in (type_list g2) i) (rows w))).
  exists (rebind_db s w1),
         (rebind_db (rebind_db s w1)
            (Frame (columns w1) (List.filter (type_in (type_list g2) i) (rows w1)))),
         (rebind_db s u1),
         (rebind_db (rebind_db s u1)
            (Frame (columns u1) (List.filter (type_in (type_list g1) i) (rows u1)))),
         (Frame (columns w) (List.filter (λ r, type_in (type_list g1) i r
                                               && type_in (type_list g2) i r) (rows w))).
  split; [by apply filter_type_run|].
  split; [apply filter_type_run; [apply working_rebind_db|done]|].
  split; [by apply filter_type_run|].
  split; [apply filter_type_run; [apply working_rebind_db|done]|].
  rewrite !working_rebind_db. simpl. rewrite !filter_filter.
  split; [done|]. split.
  { do 2 f_equal. apply filter_ext. intros r. apply andb_comm. }
  split; [done|]. split; [done|].
  intros <-. unfold w1. do 2 f_equal. apply filter_ext. intros r.
  by destruct (type_in (type_list g1) i r).
Qed.

End FilterType.

Lemma filter_type_selects_witness :
  ∃ s' w',
    filter_type (OneType "M") (construct demo) = (Ok tt, s') ∧
    working s' = Some w' ∧
    map name (rows w') = ["g1"; "g3"; "g4"].
Proof.
  destruct (filter_type_selects (OneType "M") (construct demo) demo 0)
    as (s' & w' & Hrun & Hw' & _ & Hrows & _); try reflexivity.
  exists s', w'. repeat split; try done. rewrite Hrows. reflexivity.
Defined.

Lemma filter_type_empty_list_witness :
  ∃ s', filter_type (TypeList []) (construct demo) = (Ok tt, s') ∧
        working s' = Some (Frame (columns demo) []).
Proof. apply (filter_type_empty_list (construct demo) demo 0); reflexivity. Defined.

Lemma filter_type_no_column_witness :
  filter_type (OneType "M") (construct (Frame ["30Si/28Si"] [Row "g1" [Num f1]]))
    = (Raise (KeyError "PGD Type"), construct (Frame ["30Si/28Si"] [Row "g1" [Num f1]])).
Proof.
  apply (filter_type_no_column (OneType "M") _ (Frame ["30Si/28Si"] [Row "g1" [Num f1]])).
  - reflexivity.
  - by intros ?%list_elem_of_singleton.
Defined.

Lemma filter_type_twice_witness :
  ∃ s1 s2 w2,
    filter_type (TypeList ["M"; "X"]) (construct demo) = (Ok tt, s1) ∧
    filter_type (OneType "X") s1 = (Ok tt, s2) ∧
    working s2 = Some w2 ∧
    map name (rows w2) = ["g2"].
Proof.
  destruct (filter_type_twice (TypeList ["M"; "X"]) (OneType "X") (construct demo) demo 0)
    as (s1 & s2 & _ & _ & w2 & H1 & H2 & _ & _ & Hw2 & _ & _ & Hrows & _);
    try reflexivity.
  exists s1, s2, w2. repeat split; try done. rewrite Hrows. reflexivity.
Defined.

(** ** Labels without separator *)

Section BadLabels.

Local Open Scope nat_scope.

Implicit Types (s : state) (w : DataFrame) (v : float).

Lemma create_db_iso_Raise (iso : string) (e : exn) :
  create_db_iso iso = Raise e → e = IndexError ∧ count_sep "-" iso = 0.
Proof.
  intros He. split.
  - unfold create_db_iso in He.
    destruct (str_split "-" iso !! 1) as [second|]; [|by injection He].
    destruct (str_split "-" iso !! 0) as [first|]; [done|by injection He].
  - apply create_db_iso_raises_iff. by exists e.
Qed.

Lemma create_db_iso_Ok (iso a : string) :
  create_db_iso iso = Ok a → 1 ≤ count_sep "-" iso.
Proof.
  intros Ha. destruct (count_sep "-" iso) as [|n] eqn:Hn; [|lia].
  by rewrite (create_db_iso_no_sep iso Hn) in Ha.
Qed.

Lemma header_ratio_bad_label (iso1 iso2 : string) s w :
  working s = Some w →
  count_sep "-" iso1 = 0 ∨ count_sep "-" iso2 = 0 →
  header_ratio iso1 iso2 s = (Raise IndexError, s).
Proof.
  unfold working. intros Hw Hbad.
  unfold header_ratio, bind, get_db, load, lift. cbn [fst snd self db heap].
  rewrite Hw. cbn beta iota.
  destruct (create_db_iso iso1) as [a|e] eqn:Ha.
  - destruct Hbad as [H1|H2].
    + by rewrite (create_db_iso_no_sep iso1 H1) in Ha.
    + by rewrite (create_db_iso_no_sep iso2 H2).
  - by destruct (create_db_iso_Raise iso1 e Ha) as [-> _].
Qed.

(** X5. [create_db_iso] raises exactly on the labels without separator, and
    then it is an IndexError; on every other label it returns. *)
Theorem create_db_iso_raises (iso : string) :
  (count_sep "-" iso = 0 ↔ create_db_iso iso = Raise IndexError) ∧
  (1 ≤ count_sep "-" iso ↔ ∃ a, create_db_iso iso = Ok a) ∧
  (∀ e, create_db_iso iso = Raise e → e = IndexError).
Proof.
  split; [|split].
  - split; [apply create_db_iso_no_sep|]. intros H. by eapply create_db_iso_Raise.
  - split.
    + intros Hn. destruct (create_db_iso iso) as [a|e] eqn:E; [by eexists|].
      apply create_db_iso_Raise in E as [_ E]. lia.
    + intros [a Ha]. by eapply create_db_iso_Ok.
  - intros e He. by eapply create_db_iso_Raise.
Qed.

(** X6. [header_ratio] never changes the state, whatever the labels; with a
    working table it raises IndexError as soon as one label has no
    separator, and it returns only when both labels have one. *)
Theorem header_ratio_labels (iso1 iso2 : string) s w :
  working s = Some w →
  snd (header_ratio iso1 iso2 s) = s ∧
  (count_sep "-" iso1 = 0 ∨ count_sep "-" iso2 = 0 →
     fst (header_ratio iso1 iso2 s) = Raise IndexError) ∧
  (1 ≤ count_sep "-" iso1 → 1 ≤ count_sep "-" iso2 →
     ∃ r, fst (header_ratio iso1 iso2 s) = Ok r).
Proof.
  intros Hw. split; [apply header_ratio_state|]. split.
  - intros Hbad. by rewrite (header_ratio_bad_label iso1 iso2 s w Hw Hbad).
  - intros H1 H2.
    destruct (create_db_iso iso1) as [a|e] eqn:Ha.
    2: { apply create_db_iso_Raise in Ha as [_ Ha]. lia. }
    destruct (create_db_iso iso2) as [b|e] eqn:Hb.
    2: { apply create_db_iso_Raise in Hb as [_ Hb]. lia. }
    by eapply header_ratio_returns.
Qed.

(** X7. A label without separator makes [filter_value] raise IndexError
    before anything else is looked at: whatever the comparator (valid or
    not), the value and the columns, and the state stays as it was. *)
Theorem filter_value_bad_label v (iso1 iso2 c : string) (err : bool) s w :
  working s = Some w →
  count_sep "-" iso1 = 0 ∨ count_sep "-" iso2 = 0 →
  filter_value v iso1 iso2 c err s = (Raise IndexError, s).
Proof.
  intros Hw Hbad. unfold filter_value, bind.
  by rewrite (header_ratio_bad_label iso1 iso2 s w Hw Hbad).
Qed.

End BadLabels.

Lemma header_ratio_labels_witness :
  snd (header_ratio "Si29" "Si-28" (construct demo)) = construct demo ∧
  fst (header_ratio "Si29" "Si-28" (construct demo)) = Raise IndexError.
Proof.
  destruct (header_ratio_labels "Si29" "Si-28" (construct demo) demo) as (H1 & H2 & _);
    [reflexivity|].
  split; [exact H1|]. apply H2. left. reflexivity.
Defined.

Lemma filter_value_bad_label_witness :
  filter_value f1 "Si29" "Si-28" "!=" false (construct demo)
    = (Raise IndexError, construct demo).
Proof.
  apply (filter_value_bad_label f1 "Si29" "Si-28" "!=" false (construct demo) demo).
  - reflexivity.
  - left. reflexivity.
Defined.

(** ** Filtering by value: failures and composition *)

Section FilterValueMore.

Local Open Scope nat_scope.

Implicit Types (s : state) (w : DataFrame) (v : float).

#[local] Arguments dict_get : simpl never.
#[local] Arguments err_name : simpl never.

(** X8. When the target column does not exist (the pair is not in the
    table, so that the header is ["none"], or the error column of the
    header is not there), a call with a valid comparator raises
    KeyError for that name and the state stays as it was. *)
Theorem filter_value_missing_column v (iso1 iso2 c : string) (err : bool) s w
    (hdr : string) (delta : bool) (op : cmpop) :
  working s = Some w →
  fst (header_ratio iso1 iso2 s) = Ok (hdr, delta) →
  dict_get comp_dict c = Some op →
  (if err then err_name hdr else hdr) ∉ columns w →
  filter_value v iso1 iso2 c err s
    = (Raise (KeyError (if err then err_name hdr else hdr)), s).
Proof.
  intros Hw Hh Hc Hno%col_pos_None. unfold filter_value, bind.
  rewrite header_ratio_pair, Hh. simpl. rewrite Hc.
  unfold eval_comparison, bind, get_db, load, lift, getitem. simpl.
  unfold working in Hw. rewrite Hw. simpl. by rewrite Hno.
Qed.

(** X9. With an infinity or NaN as value, on an existing target column and
    with a valid comparator, the evaluated expression reads the name
    [inf] or [nan]: NameError, and the state stays as it was. *)
Theorem filter_value_name_error v (iso1 iso2 c : string) (err : bool) s w
    (hdr : string) (delta : bool) (op : cmpop) (i : nat) :
  working s = Some w →
  fst (header_ratio iso1 iso2 s) = Ok (hdr, delta) →
  col_pos (if err then err_name hdr else hdr) (columns w) = Some i →
  dict_get comp_dict c = Some op →
  is_number v = false →
  filter_value v iso1 iso2 c err s
    = (Raise (NameError (match v with S754_nan => "nan" | _ => "inf" end)), s).
Proof.
  intros Hw Hh Hi Hc Hv. unfold filter_value, bind.
  rewrite header_ratio_pair, Hh. simpl. rewrite Hc.
  unfold eval_comparison, bind, get_db, load, lift, getitem. simpl.
  unfold working in Hw. rewrite Hw. simpl. rewrite Hi. simpl.
  by destruct v.
Qed.

(** X10. The filters are all or nothing: a call that raises leaves the whole
    state as it was; a call that returns has made one new frame, bound
    [self.db] to it and touched nothing else. *)
Theorem filters_all_or_nothing v (iso1 iso2 c : string) (err : bool)
    (g : grain_types) s :
  (∀ e s', filter_value v iso1 iso2 c err s = (Raise e, s') → s' = s) ∧
  (∀ e s', filter_type g s = (Raise e, s') → s' = s) ∧
  (∀ s', filter_value v iso1 iso2 c err s = (Ok tt, s') → ∃ df, s' = rebind_db s df) ∧
  (∀ s', filter_type g s = (Ok tt, s') → ∃ df, s' = rebind_db s df).
Proof.
  destruct (working s) as [w|] eqn:Hw.
  - destruct (filter_value_outcome v iso1 iso2 c err s w Hw) as [[e1 H1]|[m1 H1]],
             (filter_type_outcome g s w Hw) as [[e2 H2]|[m2 H2]];
      rewrite H1, H2; repeat split; intros; simplify_eq; by eauto.
  - rewrite (filter_value_dangling v iso1 iso2 c err s Hw),
            (filter_type_dangling g s Hw).
    repeat split; intros; by simplify_eq.
Qed.

Lemma filter_idem (p : row → bool) (rs : list row) :
  List.filter p (List.filter p rs) = List.filter p rs.
Proof.
  rewrite filter_filter. apply filter_ext. intros r. by destruct (p r).
Qed.

Lemma numeric_column_satisfying (op : cmpop) v (i j : nat) w :
  numeric_column j w = true →
  numeric_column j (Frame (columns w) (satisfying op v i (rows w))) = true.
Proof. apply numeric_column_filter. Qed.

(** X11. A filter repeated changes nothing more: when a call of
    [filter_value] has returned, the same call again returns and leaves
    a working table with the same content. *)
Theorem filter_value_idempotent v (iso1 iso2 c : string) (err : bool) s w
    (hdr : string) (delta : bool) (op : cmpop) (i : nat) (s1 : state) :
  working s = Some w →
  fst (header_ratio iso1 iso2 s) = Ok (hdr, delta) →
  col_pos (if err then err_name hdr else hdr) (columns w) = Some i →
  dict_get comp_dict c = Some op →
  filter_value v iso1 iso2 c err s = (Ok tt, s1) →
  ∃ s2, filter_value v iso1 iso2 c err s1 = (Ok tt, s2) ∧
        working s2 = working s1.
Proof.
  intros Hw Hh Hi Hc Hrun.
  destruct (filter_value_returns _ _ _ _ _ _ _ _ _ _ _ _ Hw Hh Hi Hc Hrun)
    as (Hv & Hcol & ->).
  set (w1 := Frame (columns w) (satisfying op v i (rows w))).
  assert (Hw1 : working (rebind_db s w1) = Some w1) by apply working_rebind_db.
  assert (Hh1 : fst (header_ratio iso1 iso2 (rebind_db s w1)) = Ok (hdr, delta)).
  { rewrite <- Hh. symmetry. by eapply header_ratio_columns. }
  exists (rebind_db (rebind_db s w1)
            (Frame (columns w1) (satisfying op v i (rows w1)))).
  split.
  - destruct Hcol as [->|Hnum].
    + by eapply filter_value_equality.
    + eapply filter_value_numeric; try done. by apply numeric_column_satisfying.
  - rewrite !working_rebind_db. unfold w1, satisfying. simpl.
    by rewrite filter_idem.
Qed.

(** X12. Two value filters commute: with values that are numbers on float
    columns, A then B and B then A both return and leave working tables
    with the same content. *)
Theorem filter_value_commute vA vB (iso1A iso2A cA iso1B iso2B cB : string)
    (errA errB : bool) s w (hdrA hdrB : string) (deltaA deltaB : bool)
    (opA opB : cmpop) (iA iB : nat) :
  working s = Some w →
  fst (header_ratio iso1A iso2A s) = Ok (hdrA, deltaA) →
  fst (header_ratio iso1B iso2B s) = Ok (hdrB, deltaB) →
  col_pos (if errA then err_name hdrA else hdrA) (columns w) = Some iA →
  col_pos (if errB then err_name hdrB else hdrB) (columns w) = Some iB →
  dict_get comp_dict cA = Some opA → dict_get comp_dict cB = Some opB →
  is_number vA = true → is_number vB = true →
  numeric_column iA w = true → numeric_column iB w = true →
  ∃ s1 s2 t1 t2,
    filter_value vA iso1A iso2A cA errA s = (Ok tt, s1) ∧
    filter_value vB iso1B iso2B cB errB s1 = (Ok tt, s2) ∧
    filter_value vB iso1B iso2B cB errB s = (Ok tt, t1) ∧
    filter_value vA iso1A iso2A cA errA t1 = (Ok tt, t2) ∧
    working s2 = working t2.
Proof.
  intros Hw HhA HhB HiA HiB HcA HcB HvA HvB HnA HnB.
  set (w1 := Frame (columns w) (satisfying opA vA iA (rows w))).
  set (u1 := Frame (columns w) (satisfying opB vB iB (rows w))).
  assert (Hw1 : working (rebind_db s w1) = Some w1) by apply working_rebind_db.
  assert (Hu1 : working (rebind_db s u1) = Some u1) by apply working_rebind_db.
  exists (rebind_db s w1),
         (rebind_db (rebind_db s w1) (Frame (columns w1) (satisfying opB vB iB (rows w1)))),
         (rebind_db s u1),
         (rebind_db (rebind_db s u1) (Frame (columns u1) (satisfying opA vA iA (rows u1)))).
  split; [by eapply filter_value_numeric|].
  split.
  { eapply filter_value_numeric; try done.
    - rewrite <- HhB. symmetry. by eapply header_ratio_columns.
    - by apply numeric_column_satisfying. }
  split; [by eapply filter_value_numeric|].
  split.
  { eapply filter_value_numeric; try done.
    - rewrite <- HhA. symmetry. by eapply header_ratio_columns.
    - by apply numeric_column_satisfying. }
  rewrite !working_rebind_db. unfold w1, u1, satisfying. simpl.
  rewrite !filter_filter. do 2 f_equal. apply filter_ext. intros r. apply andb_comm.
Qed.

(** X13. A type filter and a value filter commute: with a [PGD Type] column,
    a value that is a number and a float target column, both orders
    return and leave working tables with the same content. *)
Theorem filter_type_value_commute (g : grain_types) v (iso1 iso2 c : string)
    (err : bool) s w (hdr : string) (delta : bool) (op : cmpop) (i j : nat) :
  working s = Some w →
  col_pos "PGD Type" (columns w) = Some j →
  fst (header_ratio iso1 iso2 s) = Ok (hdr, delta) →
  col_pos (if err then err_name hdr else hdr) (columns w) = Some i →
  dict_get comp_dict c = Some op →
  is_number v = true → numeric_column i w = true →
  ∃ s1 s2 t1 t2 w2,
    filter_type g s = (Ok tt, s1) ∧
    filter_value v iso1 iso2 c err s1 = (Ok tt, s2) ∧
    filter_value v iso1 iso2 c err s = (Ok tt, t1) ∧
    filter_type g t1 = (Ok tt, t2) ∧
    working s2 = Some w2 ∧ working t2 = Some w2 ∧
    columns w2 = columns w ∧
    rows w2 = List.filter (λ r, type_in (type_list g) j r
                                && satisfies op v (cell_at i r)) (rows w).
Proof.
  intros Hw Hj Hh Hi Hc Hv Hn.
  set (w1 := Frame (columns w) (List.filter (type_in (type_list g) j) (rows w))).
  set (u1 := Frame (columns w) (satisfying op v i (rows w))).
  assert (Hw1 : working (rebind_db s w1) = Some w1) by apply working_rebind_db.
  assert (Hu1 : working (rebind_db s u1) = Some u1) by apply working_rebind_db.
  exists (rebind_db s w1),
         (rebind_db (rebind_db s w1) (Frame (columns w1) (satisfying op v i (rows w1)))),
         (rebind_db s u1),
         (rebind_db (rebind_db s u1)
            (Frame (columns u1) (List.filter (type_in (type_list g) j) (rows u1)))),
         (Frame (columns w) (List.filter (λ r, type_in (type_list g) j r
                                               && satisfies op v (cell_at i r)) (rows w))).
  split; [by apply filter_type_run|].
  split.
  { eapply filter_value_numeric; try done.
    - rewrite <- Hh. symmetry. by eapply header_ratio_columns.
    - by apply numeric_column_filter. }
  split; [by eapply filter_value_numeric|].
  split; [by apply filter_type_run|].
  rewrite !working_rebind_db. unfold w1, u1, satisfying. simpl.
  rewrite !filter_filter. split; [done|]. split; [|done].
  do 2 f_equal. apply filter_ext. intros r. apply andb_comm.
Qed.

End FilterValueMore.

Lemma create_db_iso_raises_witness :
  create_db_iso "Si28" = Raise IndexError ∧ ∃ a, create_db_iso "Si-28" = Ok a.
Proof.
  split.
  - apply (create_db_iso_raises "Si28"). reflexivity.
  - apply (create_db_iso_raises "Si-28"). simpl. lia.
Defined.

Lemma filter_value_missing_column_witness :
  filter_value f1 "Si-30" "Si-28" "<" true
      (construct (Frame ["30Si/28Si"] [Row "g1" [Num f1]]))
    = (Raise (KeyError "err[30Si/28Si]"),
       construct (Frame ["30Si/28Si"] [Row "g1" [Num f1]])).
Proof.
  apply (filter_value_missing_column f1 "Si-30" "Si-28" "<" true _
           (Frame ["30Si/28Si"] [Row "g1" [Num f1]]) "30Si/28Si" false OpLt);
    try reflexivity.
  by intros ?%list_elem_of_singleton.
Defined.

Lemma filter_value_name_error_witness :
  filter_value (S754_infinity false) "Si-29" "Si-28" "<" false (construct demo)
    = (Raise (NameError "inf"), construct demo).
Proof.
  apply (filter_value_name_error (S754_infinity false) "Si-29" "Si-28" "<" false
           (construct demo) demo "d(29Si/28Si)" true OpLt 1); reflexivity.
Defined.

Lemma filters_all_or_nothing_witness :
  snd (filter_value S754_nan "Si-29" "Si-28" "<" false (construct demo)) = construct demo.
Proof.
  destruct (filters_all_or_nothing S754_nan "Si-29" "Si-28" "<" false (OneType "M")
              (construct demo)) as (Hraise & _).
  apply (Hraise (NameError "nan")). reflexivity.
Defined.

Lemma filter_value_idempotent_witness :
  ∃ s2,
    filter_value f1 "Si-29" "Si-28" ">" false
      (snd (filter_value f1 "Si-29" "Si-28" ">" false (construct demo))) = (Ok tt, s2) ∧
    working s2 = working (snd (filter_value f1 "Si-29" "Si-28" ">" false (construct demo))).
Proof.
  apply (filter_value_idempotent f1 "Si-29" "Si-28" ">" false (construct demo) demo
           "d(29Si/28Si)" true OpGt 1); reflexivity.
Defined.

Lemma filter_value_commute_witness :
  ∃ s1 s2 t1 t2,
    filter_value f1 "Si-29" "Si-28" ">" false (construct demo) = (Ok tt, s1) ∧
    filter_value f2 "Si-29" "Si-28" "=<" true s1 = (Ok tt, s2) ∧
    filter_value f2 "Si-29" "Si-28" "=<" true (construct demo) = (Ok tt, t1) ∧
    filter_value f1 "Si-29" "Si-28" ">" false t1 = (Ok tt, t2) ∧
    working s2 = working t2.
Proof.
  apply (filter_value_commute f1 f2 "Si-29" "Si-28" ">" "Si-29" "Si-28" "=<"
           false true (construct demo) demo "d(29Si/28Si)" "d(29Si/28Si)" true true
           OpGt OpLe 1 2); reflexivity.
Defined.

Lemma filter_type_value_commute_witness :
  ∃ s1 s2 t1 t2 w2,
    filter_type (OneType "M") (construct demo) = (Ok tt, s1) ∧
    filter_value f1 "Si-29" "Si-28" ">" false s1 = (Ok tt, s2) ∧
    filter_value f1 "Si-29" "Si-28" ">" false (construct demo) = (Ok tt, t1) ∧
    filter_type (OneType "M") t1 = (Ok tt, t2) ∧
    working s2 = Some w2 ∧ working t2 = Some w2 ∧
    columns w2 = columns demo ∧
    rows w2 = List.filter (λ r, type_in (type_list (OneType "M")) 0 r
                                && satisfies OpGt f1 (cell_at 1 r)) (rows demo).
Proof.
  apply (filter_type_value_commute (OneType "M") f1 "Si-29" "Si-28" ">" false
           (construct demo) demo "d(29Si/28Si)" true OpGt 1 0); reflexivity.
Defined.

(** ** The store across calls *)

Section Store.

Local Open Scope nat_scope.

Implicit Types (s t : state) (w b csv : DataFrame).

Lemma prefix_rebind_db s df : heap s `prefix_of` heap (rebind_db s df).
Proof. by exists [df]. Qed.

Lemma exec_store b s (c : call) :
  anchored b s →
  heap s `prefix_of` heap (exec c s) ∧ _db (self (exec c s)) = _db (self s).
Proof.
  intros (Hb & w & Hw & _).
  destruct c as [v iso1 iso2 cmp err|g|iso1 iso2| |isos1 isos2]; simpl.
  - by destruct (filter_value_outcome v iso1 iso2 cmp err s w Hw) as [[e ->]|[mask ->]];
      simpl; split; try done; apply prefix_rebind_db.
  - by destruct (filter_type_outcome g s w Hw) as [[e ->]|[mask ->]];
      simpl; split; try done; apply prefix_rebind_db.
  - by rewrite header_ratio_state.
  - rewrite (reset_run s b Hb). simpl. split; [apply prefix_rebind_db|done].
  - destruct (return_ratios_outcome isos1 isos2 s) as [extra ->]. simpl.
    split; [by exists extra|done].
Qed.

(** X14. The backup table is never touched: after construction from [csv]
    and any sequence of calls, returning or raising, [self._db] still
    holds exactly [csv]. *)
Theorem backup_never_changes csv (cs : list call) :
  backup (exec_all cs (construct csv)) = Some csv.
Proof.
  by destruct (anchored_exec_all csv cs _ (anchored_construct csv)) as [Hb _].
Qed.

(** X15. No call overwrites a frame that exists: after construction and any
    sequence of calls, one more call leaves every object of the store
    as it was (the store only grows), and [self._db] points where it
    did. *)
Theorem calls_never_overwrite csv (cs : list call) (c : call) :
  heap (exec_all cs (construct csv))
    `prefix_of` heap (exec c (exec_all cs (construct csv))) ∧
  _db (self (exec c (exec_all cs (construct csv))))
    = _db (self (exec_all cs (construct csv))).
Proof.
  apply (exec_store csv).
  apply anchored_exec_all, anchored_construct.
Qed.

(** X16. The resolution of a pair does not depend on the filters applied:
    after any sequence of calls, [header_ratio] answers what it answers
    right after construction. *)
Theorem header_ratio_stable csv (cs : list call) (iso1 iso2 : string) :
  fst (header_ratio iso1 iso2 (exec_all cs (construct csv)))
    = fst (header_ratio iso1 iso2 (construct csv)).
Proof.
  destruct (anchored_exec_all csv cs _ (anchored_construct csv))
    as (_ & w & Hw & Hcols & _).
  by apply (header_ratio_columns iso1 iso2 _ _ w csv).
Qed.

End Store.

(** ** Calls depend on the two tables only *)

Section SameTables.

Local Open Scope nat_scope.

Implicit Types (s t : state) (w b csv : DataFrame) (v : float).

#[local] Arguments dict_get : simpl never.
#[local] Arguments err_name : simpl never.
#[local] Arguments getitem_list : simpl never.

Lemma same_tables_rebind_db s t df :
  same_tables s t → same_tables (rebind_db s df) (rebind_db t df).
Proof.
  intros (w & b & Hws & Hwt & Hbs & Hbt). exists df, b.
  rewrite !working_rebind_db, !backup_rebind_db by (by eexists). done.
Qed.

Lemma same_tables_grow s t (xs ys : list DataFrame) :
  same_tables s t →
  same_tables (State (heap s ++ xs) (self s)) (State (heap t ++ ys) (self t)).
Proof.
  intros (w & b & Hws & Hwt & Hbs & Hbt). exists w, b.
  unfold working, backup. simpl.
  rewrite !lookup_app_l by (by eapply backup_lt || by eapply working_lt). done.
Qed.

Lemma return_ratios_raise_x (isos1 isos2 : string * string) s (e : exn) :
  fst (header_ratio (fst isos1) (snd isos1) s) = Raise e →
  return_ratios isos1 isos2 s = (Raise e, s).
Proof. intros Hx. unfold return_ratios, bind. by rewrite header_ratio_pair, Hx. Qed.

Lemma return_ratios_raise_y (isos1 isos2 : string * string) s
    (rx : string * bool) (e : exn) :
  fst (header_ratio (fst isos1) (snd isos1) s) = Ok rx →
  fst (header_ratio (fst isos2) (snd isos2) s) = Raise e →
  return_ratios isos1 isos2 s = (Raise e, s).
Proof.
  intros Hx Hy. unfold return_ratios, bind.
  by rewrite header_ratio_pair, Hx, header_ratio_pair, Hy.
Qed.

Lemma return_ratios_raise_sel (isos1 isos2 : string * string) s w
    (hx hy : string) (dx dy : bool) (e : exn) :
  working s = Some w →
  fst (header_ratio (fst isos1) (snd isos1) s) = Ok (hx, dx) →
  fst (header_ratio (fst isos2) (snd isos2) s) = Ok (hy, dy) →
  getitem_list w [hx; hy; err_name hx; err_name hy] = Raise e →
  return_ratios isos1 isos2 s = (Raise e, s).
Proof.
  intros Hw Hx Hy Hsel. unfold return_ratios, bind.
  rewrite header_ratio_pair, Hx, header_ratio_pair, Hy. simpl.
  unfold get_db, load, lift. simpl. unfold working in Hw.
  by rewrite Hw, Hsel.
Qed.

Lemma filter_value_same v (iso1 iso2 c : string) (err : bool) s t :
  same_tables s t →
  fst (filter_value v iso1 iso2 c err s) = fst (filter_value v iso1 iso2 c err t) ∧
  same_tables (snd (filter_value v iso1 iso2 c err s))
              (snd (filter_value v iso1 iso2 c err t)).
Proof.
  intros Hst. pose proof Hst as (w & b & Hws & Hwt & Hbs & Hbt).
  unfold filter_value, bind.
  rewrite (header_ratio_pair iso1 iso2 s), (header_ratio_pair iso1 iso2 t).
  rewrite (header_ratio_columns iso1 iso2 s t w w Hws Hwt eq_refl).
  destruct (fst (header_ratio iso1 iso2 t)) as [[hdr delta]|e]; [|done].
  simpl. destruct (dict_get comp_dict c) as [op|]; [|done].
  unfold eval_comparison, bind, get_db, load, lift, new, set_db. simpl.
  unfold working in Hws, Hwt. rewrite Hws, Hwt. simpl.
  destruct (getitem w _) as [ser|e]; simpl; [|done].
  destruct (eval_repr v) as [v'|e]; simpl; [|done].
  destruct (compare_series op ser v') as [mask|e]; simpl; [|done].
  rewrite Hws, Hwt. simpl. split; [done|].
  by apply (same_tables_rebind_db s t (getitem_mask w mask)).
Qed.

Lemma filter_type_same (g : grain_types) s t :
  same_tables s t →
  fst (filter_type g s) = fst (filter_type g t) ∧
  same_tables (snd (filter_type g s)) (snd (filter_type g t)).
Proof.
  intros Hst. pose proof Hst as (w & b & Hws & Hwt & Hbs & Hbt).
  unfold filter_type, bind, get_db, load, lift, new, set_db. simpl.
  unfold working in Hws, Hwt. rewrite Hws, Hwt. simpl.
  destruct (getitem w "PGD Type") as [ser|e]; simpl; [|done].
  split; [done|].
  by apply (same_tables_rebind_db s t (getitem_mask w _)).
Qed.

Lemma return_ratios_same (isos1 isos2 : string * string) s t :
  same_tables s t →
  fst (return_ratios isos1 isos2 s) = fst (return_ratios isos1 isos2 t) ∧
  same_tables (snd (return_ratios isos1 isos2 s)) (snd (return_ratios isos1 isos2 t)).
Proof.
  intros Hst. pose proof Hst as (w & b & Hws & Hwt & Hbs & Hbt).
  pose proof (header_ratio_columns (fst isos1) (snd isos1) s t w w Hws Hwt eq_refl) as Ex.
  pose proof (header_ratio_columns (fst isos2) (snd isos2) s t w w Hws Hwt eq_refl) as Ey.
  destruct (fst (header_ratio (fst isos1) (snd isos1) t)) as [[hx dx]|e] eqn:Hx.
  2: { by rewrite (return_ratios_raise_x isos1 isos2 s e Ex),
                  (return_ratios_raise_x isos1 isos2 t e Hx). }
  destruct (fst (header_ratio (fst isos2) (snd isos2) t)) as [[hy dy]|e] eqn:Hy.
  2: { by rewrite (return_ratios_raise_y isos1 isos2 s _ e Ex Ey),
                  (return_ratios_raise_y isos1 isos2 t _ e Hx Hy). }
  destruct (getitem_list w [hx; hy; err_name hx; err_name hy]) as [sel|e] eqn:Hsel.
  - rewrite (return_ratios_run isos1 isos2 s w hx hy dx dy sel Hws Ex Ey Hsel),
            (return_ratios_run isos1 isos2 t w hx hy dx dy sel Hwt Hx Hy Hsel).
    simpl. split; [done|]. by apply same_tables_grow.
  - by rewrite (return_ratios_raise_sel isos1 isos2 s w hx hy dx dy e Hws Ex Ey Hsel),
               (return_ratios_raise_sel isos1 isos2 t w hx hy dx dy e Hwt Hx Hy Hsel).
Qed.

Lemma call_same (c : call) s t :
  same_tables s t → run c s = run c t ∧ same_tables (exec c s) (exec c t).
Proof.
  intros Hst. pose proof Hst as (w & b & Hws & Hwt & Hbs & Hbt).
  destruct c as [v iso1 iso2 cmp err|g|iso1 iso2| |isos1 isos2]; simpl.
  - destruct (filter_value_same v iso1 iso2 cmp err s t Hst) as [-> ?]. done.
  - destruct (filter_type_same g s t Hst) as [-> ?]. done.
  - rewrite !header_ratio_state.
    by rewrite (header_ratio_columns iso1 iso2 s t w w Hws Hwt eq_refl).
  - rewrite (reset_run s b Hbs), (reset_run t b Hbt). simpl.
    split; [done|]. by apply same_tables_rebind_db.
  - destruct (return_ratios_same isos1 isos2 s t Hst) as [-> ?]. done.
Qed.

Lemma trace_same (cs : list call) s t :
  same_tables s t →
  trace cs s = trace cs t ∧ same_tables (exec_all cs s) (exec_all cs t).
Proof.
  revert s t. induction cs as [|c cs IH]; intros s t Hst; simpl; [done|].
  destruct (call_same c s t Hst) as [-> Hnext].
  destruct (IH _ _ Hnext) as [-> ?]. done.
Qed.

(** X17. The methods read the object through the contents of its two tables
    only: from two states with the same working table and the same
    backup table, any sequence of calls gives the same answers and
    exceptions, call by call, and ends with the same two tables. *)
Theorem calls_depend_on_tables (cs : list call) s t :
  same_tables s t →
  trace cs s = trace cs t ∧ same_tables (exec_all cs s) (exec_all cs t).
Proof. apply trace_same. Qed.

(** X18. After [reset] the object is as good as new: whatever was called
    before, the calls that follow a [reset] give the answers and
    exceptions, and leave the working table, that they give on an
    object just constructed from the same file. *)
Theorem reset_as_fresh csv (cs cs' : list call) :
  trace cs' (exec Reset (exec_all cs (construct csv))) = trace cs' (construct csv) ∧
  working (exec_all cs' (exec Reset (exec_all cs (construct csv))))
    = working (exec_all cs' (construct csv)).
Proof.
  destruct (anchored_exec_all csv cs _ (anchored_construct csv)) as [Hb _].
  assert (Hst : same_tables (exec Reset (exec_all cs (construct csv))) (construct csv)).
  { simpl. rewrite (reset_run _ csv Hb). simpl. exists csv, csv.
    rewrite working_rebind_db, backup_rebind_db by (by eexists). done. }
  destruct (trace_same cs' _ _ Hst) as [-> (w & b & -> & -> & _)].
  done.
Qed.

End SameTables.

Lemma calls_depend_on_tables_witness :
  trace [FilterType (OneType "M"); ReturnRatios ("Si-29", "Si-28") ("Si-30", "Si-28")]
        (exec Reset (construct demo))
    = trace [FilterType (OneType "M"); ReturnRatios ("Si-29", "Si-28") ("Si-30", "Si-28")]
            (construct demo).
Proof.
  apply (calls_depend_on_tables _ (exec Reset (construct demo)) (construct demo)).
  exists demo, demo. repeat split; reflexivity.
Defined.

(** ** More on extracting two ratios *)

Section ReturnRatiosMore.

Local Open Scope nat_scope.

Implicit Types (s : state) (w : DataFrame) (v : float).

#[local] Arguments dict_get : simpl never.
#[local] Arguments err_name : simpl never.

(** The four arrays when the four column names are distinct. *)
Lemma return_ratios_distinct (isos1 isos2 : string * string) s w
    (hx hy : string) (dx dy : bool) (ix iy iex iey : nat) :
  working s = Some w →
  fst (header_ratio (fst isos1) (snd isos1) s) = Ok (hx, dx) →
  fst (header_ratio (fst isos2) (snd isos2) s) = Ok (hy, dy) →
  col_pos hx (columns w) = Some ix →
  col_pos hy (columns w) = Some iy →
  col_pos (err_name hx) (columns w) = Some iex →
  col_pos (err_name hy) (columns w) = Some iey →
  NoDup [hx; hy; err_name hx; err_name hy] →
  fst (return_ratios isos1 isos2 s)
    = Ok (Arr1 (map (cell_at ix) (List.filter (complete4 ix iy iex iey) (rows w))),
          Arr1 (map (cell_at iy) (List.filter (complete4 ix iy iex iey) (rows w))),
          Arr1 (map (cell_at iex) (List.filter (complete4 ix iy iex iey) (rows w))),
          Arr1 (map (cell_at iey) (List.filter (complete4 ix iy iex iey) (rows w)))).
Proof.
  intros Hw Hx Hy Hix Hiy Hiex Hiey Hnd.
  pose proof (getitem_list_four w hx hy (err_name hx) (err_name hy)
                ix iy iex iey Hix Hiy Hiex Hiey) as Hsel.
  rewrite (return_ratios_run isos1 isos2 s w hx hy dx dy _ Hw Hx Hy Hsel).
  rewrite dropna_four. cbn [fst]. unfold arrays.
  destruct (all_pos_four _ _ _ _ Hnd) as (Px & Py & Pex & Pey).
  rewrite (getitem_to_numpy_one _ _ hx 0 Px), (getitem_to_numpy_one _ _ hy 1 Py),
          (getitem_to_numpy_one _ _ (err_name hx) 2 Pex),
          (getitem_to_numpy_one _ _ (err_name hy) 3 Pey).
  cbn [rbind]. by rewrite !map_map.
Qed.

Lemma complete4_swap (ix iy iex iey : nat) (r : row) :
  complete4 iy ix iey iex r = complete4 ix iy iex iey r.
Proof.
  unfold complete4.
  by destruct (isna (cell_at ix r)), (isna (cell_at iy r)),
              (isna (cell_at iex r)), (isna (cell_at iey r)).
Qed.

Lemma NoDup_four_swap (a b c d : string) :
  NoDup [a; b; c; d] → NoDup [b; a; d; c].
Proof.
  intros H. eapply NoDup_Permutation_proper; [|exact H].
  rewrite (Permutation_swap b a), (Permutation_swap d c). done.
Qed.

(** X19. Exchanging the two pairs exchanges the axes: with the four columns
    present and their names distinct, [return_ratios(isos2, isos1)]
    returns the y arrays of [return_ratios(isos1, isos2)] as its x
    arrays and the x arrays as its y arrays, for the same records. *)
Theorem return_ratios_swap (isos1 isos2 : string * string) s w
    (hx hy : string) (dx dy : bool) (ix iy iex iey : nat) :
  working s = Some w →
  fst (header_ratio (fst isos1) (snd isos1) s) = Ok (hx, dx) →
  fst (header_ratio (fst isos2) (snd isos2) s) = Ok (hy, dy) →
  col_pos hx (columns w) = Some ix →
  col_pos hy (columns w) = Some iy →
  col_pos (err_name hx) (columns w) = Some iex →
  col_pos (err_name hy) (columns w) = Some iey →
  NoDup [hx; hy; err_name hx; err_name hy] →
  ∃ xdata ydata xerr yerr,
    fst (return_ratios isos1 isos2 s) = Ok (xdata, ydata, xerr, yerr) ∧
    fst (return_ratios isos2 isos1 s) = Ok (ydata, xdata, yerr, xerr).
Proof.
  intros Hw Hx Hy Hix Hiy Hiex Hiey Hnd. do 4 eexists.
  split; [by apply (return_ratios_distinct isos1 isos2 s w hx hy dx dy ix iy iex iey)|].
  rewrite (return_ratios_distinct isos2 isos1 s w hy hx dy dx iy ix iey iex);
    try done; [|by apply NoDup_four_swap].
  by rewrite (filter_ext _ _ (complete4_swap ix iy iex iey)).
Qed.

(** X20. A value filter shows in what is extracted: after [filter_value] on
    the first pair has returned, [return_ratios] with that pair as
    first axis returns x values (x errors, when the filter was on the
    errors) that all satisfy the comparison of the filter. *)
Theorem return_ratios_after_filter v (c : string) (err : bool)
    (isos1 isos2 : string * string) s w (hx hy : string) (dx dy : bool)
    (op : cmpop) (ix iy iex iey : nat) (s1 : state) :
  working s = Some w →
  fst (header_ratio (fst isos1) (snd isos1) s) = Ok (hx, dx) →
  fst (header_ratio (fst isos2) (snd isos2) s) = Ok (hy, dy) →
  col_pos hx (columns w) = Some ix →
  col_pos hy (columns w) = Some iy →
  col_pos (err_name hx) (columns w) = Some iex →
  col_pos (err_name hy) (columns w) = Some iey →
  NoDup [hx; hy; err_name hx; err_name hy] →
  dict_get comp_dict c = Some op →
  filter_value v (fst isos1) (snd isos1) c err s = (Ok tt, s1) →
  ∃ xdata ydata xerr yerr,
    fst (return_ratios isos1 isos2 s1)
      = Ok (Arr1 xdata, Arr1 ydata, Arr1 xerr, Arr1 yerr) ∧
    ∀ x, x ∈ (if err then xerr else xdata) → satisfies op v x = true.
Proof.
  intros Hw Hx Hy Hix Hiy Hiex Hiey Hnd Hc Hrun.
  set (i := if err then iex else ix).
  assert (Hi : col_pos (if err then err_name hx else hx) (columns w) = Some i).
  { unfold i. by destruct err. }
  destruct (filter_value_returns _ _ _ _ _ _ _ _ _ _ _ _ Hw Hx Hi Hc Hrun)
    as (_ & _ & ->).
  set (w1 := Frame (columns w) (satisfying op v i (rows w))).
  assert (Hw1 : working (rebind_db s w1) = Some w1) by apply working_rebind_db.
  do 4 eexists. split.
  - apply (return_ratios_distinct isos1 isos2 _ w1 hx hy dx dy ix iy iex iey);
      try done.
    + rewrite <- Hx. symmetry. by eapply header_ratio_columns.
    + rewrite <- Hy. symmetry. by eapply header_ratio_columns.
  - assert (Hsat : ∀ r, r ∈ List.filter (complete4 ix iy iex iey) (rows w1) →
                        satisfies op v (cell_at i r) = true).
    { intros r Hr. apply list_elem_of_In, filter_In in Hr as [Hr _].
      apply list_elem_of_In, satisfying_elem_of in Hr. by destruct Hr. }
    intros x Hin. unfold i in Hsat.
    destruct err; apply list_elem_of_fmap in Hin as (r & -> & Hr); by apply Hsat.
Qed.





(** X22. A label without separator in either pair makes [return_ratios]
    raise IndexError, and the state stays as it was. *)
Theorem return_ratios_bad_label (isos1 isos2 : string * string) s w :
  working s = Some w →
  count_sep "-" (fst isos1) = 0 ∨ count_sep "-" (snd isos1) = 0 ∨
  count_sep "-" (fst isos2) = 0 ∨ count_sep "-" (snd isos2) = 0 →
  return_ratios isos1 isos2 s = (Raise IndexError, s).
Proof.
  intros Hw Hbad.
  destruct (fst (header_ratio (fst isos1) (snd isos1) s)) as [rx|e] eqn:Hx.
  - assert (Hy : fst (header_ratio (fst isos2) (snd isos2) s) = Raise IndexError).
    { destruct Hbad as [H|[H|Hbad]].
      - by rewrite (header_ratio_bad_label _ _ s w Hw (or_introl H)) in Hx.
      - by rewrite (header_ratio_bad_label _ _ s w Hw (or_intror H)) in Hx.
      - by rewrite (header_ratio_bad_label _ _ s w Hw Hbad). }
    by apply (return_ratios_raise_y isos1 isos2 s rx).
  - assert (e = IndexError) as ->.
    { destruct (create_db_iso (fst isos1)) as [a|e1] eqn:Ha.
      - destruct (create_db_iso (snd isos1)) as [b|e2] eqn:Hb.
        + destruct (header_ratio_returns _ _ a b s w Hw Ha Hb) as [r Hr]. congruence.
        + apply create_db_iso_Raise in Hb as [_ Hb].
          rewrite (header_ratio_bad_label _ _ s w Hw (or_intror Hb)) in Hx.
          by injection Hx.
      - apply create_db_iso_Raise in Ha as [_ Ha].
        rewrite (header_ratio_bad_label _ _ s w Hw (or_introl Ha)) in Hx.
        by injection Hx. }
    by apply return_ratios_raise_x.
Qed.

End ReturnRatiosMore.

Lemma return_ratios_swap_witness :
  ∃ xdata ydata xerr yerr,
    fst (return_ratios ("Si-29", "Si-28") ("Si-30", "Si-28") (construct demo))
      = Ok (xdata, ydata, xerr, yerr) ∧
    fst (return_ratios ("Si-30", "Si-28") ("Si-29", "Si-28") (construct demo))
      = Ok (ydata, xdata, yerr, xerr).
Proof.
  apply (return_ratios_swap ("Si-29", "Si-28") ("Si-30", "Si-28") (construct demo) demo
           "d(29Si/28Si)" "30Si/28Si" true false 1 3 2 4); try reflexivity.
  by apply (bool_decide_unpack _).
Defined.

Lemma return_ratios_after_filter_witness :
  fst (return_ratios ("Si-29", "Si-28") ("Si-30", "Si-28")
         (snd (filter_value f1 "Si-29" "Si-28" ">" false (construct sample))))
    = Ok (Arr1 [Num f2; Num f4], Arr1 [Num f4; Num f1],
          Arr1 [Num f1; Num f1], Arr1 [Num f1; Num f1]) ∧
  ∀ x, x ∈ [Num f2; Num f4] → satisfies OpGt f1 x = true.
Proof.
  destruct (return_ratios_after_filter f1 ">" false ("Si-29", "Si-28") ("Si-30", "Si-28")
              (construct sample) sample "29Si/28Si" "30Si/28Si" false false OpGt 1 3 2 4
              (snd (filter_value f1 "Si-29" "Si-28" ">" false (construct sample))))
    as (xdata & ydata & xerr & yerr & Hrun & Hsat); try reflexivity.
  { by apply (bool_decide_unpack _). }
  assert (Hc : fst (return_ratios ("Si-29", "Si-28") ("Si-30", "Si-28")
                      (snd (filter_value f1 "Si-29" "Si-28" ">" false (construct sample))))
               = Ok (Arr1 [Num f2; Num f4], Arr1 [Num f4; Num f1],
                     Arr1 [Num f1; Num f1], Arr1 [Num f1; Num f1])) by reflexivity.
  rewrite Hc in Hrun. injection Hrun as <- <- <- <-.
  split; [reflexivity | exact Hsat].
Defined.


Lemma return_ratios_bad_label_witness :
  return_ratios ("Si-29", "Si-28") ("Si30", "Si-28") (construct demo)
    = (Raise IndexError, construct demo).
Proof.
  apply (return_ratios_bad_label ("Si-29", "Si-28") ("Si30", "Si-28") (construct demo) demo).
  - reflexivity.
  - right. right. left. reflexivity.
Defined.
